(** * Liljegren WBGT model ([liljegren_c.c]): a shallow embedding

    The C source computes the wet bulb-globe temperature from standard
    meteorological measurements.  This development embeds the functions of
    [liljegren_c.c] as Rocq functions and proves properties of them.

    Numbers are modelled the way the C code has them:

    - [int] is a 32-bit two's-complement integer, carried as [Z], with
      wrap-around written out on arithmetic;
    - [double] is IEEE-754 binary64 and [float] is IEEE-754 binary32, both
      carried as [spec_float] and computed with the round-to-nearest-even
      operations of [SpecFloat], every C conversion between the two written
      out (expressions are evaluated in the type C gives them, i.e.
      [FLT_EVAL_METHOD == 0]);
    - the transcendental functions of [<math.h>] ([exp], [log], [pow], [sin],
      [cos], [tan], [asin], [acos], [atan2]) are not defined by the C source
      and not fixed bit-for-bit by any standard: they are a parameter
      ([Libm]) of every definition; the functions that IEEE-754 / C fix
      exactly ([sqrt], [fabs], [modf], [round]) are defined here;
    - [spa_calculate] (from [spa_c.h], not part of [liljegren_c.c]) is a
      parameter as well;
    - a C literal such as [218.] is written [218.0];
    - a local variable that is read before the C code wrote it takes its
      value from an explicit record of indeterminate values. *)

From Stdlib Require Import ZArith Bool List Lia SpecFloat Decimal.
Import ListNotations.
Local Open Scope Z_scope.

(** ** Machine integers *)

Definition int := Z.

Definition INT_MIN : int := - 2 ^ 31.

(** Two's-complement wrap-around of a 32-bit [int]. *)
Definition wrap32 (z : Z) : int := (z + 2 ^ 31) mod 2 ^ 32 - 2 ^ 31.

Definition iadd (a b : int) : int := wrap32 (a + b).
Definition isub (a b : int) : int := wrap32 (a - b).
Definition imul (a b : int) : int := wrap32 (a * b).
(** C division and remainder truncate toward zero. *)
Definition idiv (a b : int) : int := wrap32 (Z.quot a b).
Definition irem (a b : int) : int := Z.rem a b.

(** ** IEEE-754 binary32 and binary64 *)

Definition prec64 : Z := 53.
Definition emax64 : Z := 1024.
Definition prec32 : Z := 24.
Definition emax32 : Z := 128.

Record double : Set := Dbl { dbits : spec_float }.
Record float : Set := Flt { fbits : spec_float }.

(** Rounding of a [spec_float] of any precision into a format. *)
Definition sf_round (prec emax : Z) (x : spec_float) : spec_float :=
  match x with
  | S754_finite s m e => binary_round prec emax s m e
  | _ => x
  end.

(** [n / d], correctly rounded. *)
Definition of_ratio (prec emax : Z) (n : Z) (d : positive) : spec_float :=
  match n with
  | Z0 => S754_zero false
  | Zpos p => SFdiv prec emax (S754_finite false p 0) (S754_finite false d 0)
  | Zneg p => SFdiv prec emax (S754_finite true p 0) (S754_finite false d 0)
  end.

(** [n * 10 ^ k], correctly rounded: the value of a decimal literal. *)
Definition of_dec (prec emax : Z) (n k : Z) : spec_float :=
  match k with
  | Zneg p => of_ratio prec emax n (Pos.pow 10 p)
  | _ => binary_normalize prec emax (n * 10 ^ k) 0 false
  end.

Definition dec_parts (d : Decimal.decimal) : Z * Z :=
  match d with
  | Decimal.Decimal i f =>
      (Z.of_int (Decimal.app_int i f), - Z.of_nat (Decimal.nb_digits f))
  | Decimal.DecimalExp i f e =>
      (Z.of_int (Decimal.app_int i f),
       Z.of_int e - Z.of_nat (Decimal.nb_digits f))
  end.

Definition double_of_number (n : Number.number) : option double :=
  match n with
  | Number.Decimal d =>
      let '(m, k) := dec_parts d in Some (Dbl (of_dec prec64 emax64 m k))
  | Number.Hexadecimal _ => None
  end.

Definition number_of_double (x : double) : option Number.number := None.

Declare Scope double_scope.
Delimit Scope double_scope with D.
Bind Scope double_scope with double.

(** A decimal literal in [double_scope] is the C [double] constant of the
    same spelling. *)
Number Notation double double_of_number number_of_double : double_scope.

Module D.
Definition add (x y : double) : double :=
  Dbl (SFadd prec64 emax64 (dbits x) (dbits y)).
Definition sub (x y : double) : double :=
  Dbl (SFsub prec64 emax64 (dbits x) (dbits y)).
Definition mul (x y : double) : double :=
  Dbl (SFmul prec64 emax64 (dbits x) (dbits y)).
Definition div (x y : double) : double :=
  Dbl (SFdiv prec64 emax64 (dbits x) (dbits y)).
Definition opp (x : double) : double := Dbl (SFopp (dbits x)).
Definition ltb (x y : double) : bool := SFltb (dbits x) (dbits y).
Definition leb (x y : double) : bool := SFleb (dbits x) (dbits y).
Definition eqb (x y : double) : bool := SFeqb (dbits x) (dbits y).
Definition of_int (z : int) : double :=
  Dbl (binary_normalize prec64 emax64 z 0 false).
Definition nan : double := Dbl S754_nan.
End D.

Module F.
Definition add (x y : float) : float :=
  Flt (SFadd prec32 emax32 (fbits x) (fbits y)).
Definition sub (x y : float) : float :=
  Flt (SFsub prec32 emax32 (fbits x) (fbits y)).
Definition mul (x y : float) : float :=
  Flt (SFmul prec32 emax32 (fbits x) (fbits y)).
Definition div (x y : float) : float :=
  Flt (SFdiv prec32 emax32 (fbits x) (fbits y)).
Definition ltb (x y : float) : bool := SFltb (fbits x) (fbits y).
Definition leb (x y : float) : bool := SFleb (fbits x) (fbits y).
Definition eqb (x y : float) : bool := SFeqb (fbits x) (fbits y).
Definition of_int (z : int) : float :=
  Flt (binary_normalize prec32 emax32 z 0 false).
End F.

(** The C conversions between the two formats: [float] to [double] is exact,
    [double] to [float] rounds to nearest even. *)
Definition to_double (x : float) : double :=
  Dbl (sf_round prec64 emax64 (fbits x)).
Definition to_float (x : double) : float :=
  Flt (sf_round prec32 emax32 (dbits x)).

(** As in C, a [float] operand of a [double] operation is promoted. *)
Coercion to_double : float >-> double.

Notation "x + y" := (D.add x y) : double_scope.
Notation "x - y" := (D.sub x y) : double_scope.
Notation "x * y" := (D.mul x y) : double_scope.
Notation "x / y" := (D.div x y) : double_scope.
Notation "- x" := (D.opp x) : double_scope.
(** C's comparisons; every one of them is false on a NaN, except [!=]. *)
Notation "x <? y" := (D.ltb x y) : double_scope.
Notation "x >? y" := (D.ltb y x) : double_scope.
Notation "x <=? y" := (D.leb x y) : double_scope.
Notation "x >=? y" := (D.leb y x) : double_scope.
Notation "x =? y" := (D.eqb x y) : double_scope.

(** Single-precision operations carry an [f]. *)
Notation "x +f y" := (F.add x y) (at level 50, left associativity).
Notation "x -f y" := (F.sub x y) (at level 50, left associativity).
Notation "x *f y" := (F.mul x y) (at level 40, left associativity).
Notation "x /f y" := (F.div x y) (at level 40, left associativity).
Notation "x <f? y" := (F.ltb x y) (at level 70, no associativity).
Notation "x >f? y" := (F.ltb y x) (at level 70, no associativity).
Notation "x =f? y" := (F.eqb x y) (at level 70, no associativity).

(** The macros [max] and [min] of the source, on [double] operands:
    [((a) > (b) ? (a) : (b))] and [((a) < (b) ? (a) : (b))]. *)
Definition max (a b : double) : double := if (a >? b)%D then a else b.
Definition min (a b : double) : double := if (a <? b)%D then a else b.

(** ** The functions of [<math.h>] that are fixed exactly *)

Definition sqrt (x : double) : double := Dbl (SFsqrt prec64 emax64 (dbits x)).
Definition fabs (x : double) : double := Dbl (SFabs (dbits x)).

(** [modf x] is the pair of the fractional part of [x] (the value C returns)
    and its integral part (the value C stores through the pointer), both
    with the sign of [x]. *)
Definition modf (x : double) : double * double :=
  match dbits x with
  | S754_nan => (D.nan, D.nan)
  | S754_infinity s => (Dbl (S754_zero s), x)
  | S754_zero s => (x, x)
  | S754_finite s m e =>
      if 0 <=? e then (Dbl (S754_zero s), x)
      else
        let ip := Z.shiftr (Zpos m) (- e) in
        let fp := Zpos m - Z.shiftl ip (- e) in
        let sgn z := if s then - z else z in
        (Dbl (binary_normalize prec64 emax64 (sgn fp) e s),
         Dbl (binary_normalize prec64 emax64 (sgn ip) 0 s))
  end.

(** The conversion of a [double] to [int] truncates toward zero.  C leaves
    the conversion of a NaN or of a value outside the range of [int]
    undefined; the model takes what the x86-64 conversion instruction
    gives, [INT_MIN]. *)
Definition int_of_double (x : double) : int :=
  match dbits x with
  | S754_zero _ => 0
  | S754_finite s m e =>
      let a := if 0 <=? e then Z.shiftl (Zpos m) e else Z.shiftr (Zpos m) (- e) in
      let z := if s then - a else a in
      if (INT_MIN <=? z) && (z <? 2 ^ 31) then z else INT_MIN
  | _ => INT_MIN
  end.

(** [round]: to the nearest integer, halfway cases away from zero. *)
Definition round (x : double) : double :=
  match dbits x with
  | S754_finite s m e =>
      if 0 <=? e then x
      else
        let a := Z.shiftr (Z.shiftr (Zpos m) (- e - 1) + 1) 1 in
        Dbl (binary_normalize prec64 emax64 (if s then - a else a) 0 s)
  | _ => x
  end.

(** The same macros on two [float] operands (no promotion takes place). *)
Definition maxf (a b : float) : float := if a >f? b then a else b.
Definition minf (a b : float) : float := if a <f? b then a else b.

(** ** The parameters of the development *)

(** The transcendental functions of the C library. *)
Record Libm : Type := {
  exp : double -> double;
  log : double -> double;
  pow : double -> double -> double;
  sin : double -> double;
  cos : double -> double;
  tan : double -> double;
  asin : double -> double;
  acos : double -> double;
  atan2 : double -> double -> double
}.

(** The fields of [spa_data] that [calc_solar_parameters] sets before it
    calls [spa_calculate], and the two that it reads afterwards. *)
Record spa_data : Set := {
  spa_latitude : double;
  spa_longitude : double;
  spa_year : int;
  spa_month : int;
  spa_day : int;
  spa_hour : int;
  spa_minute : int;
  spa_second : double;
  spa_pressure : double;
  spa_temperature : double;
  spa_elevation : double;
  spa_delta_t : double;
  spa_delta_ut1 : double
}.

Record spa_output : Set := {
  spa_result : int;   (* the value [spa_calculate] returns *)
  spa_zenith : double;
  spa_r : double
}.

(** Values of the local variables that the code may read before it has
    written them. *)
Record indeterminate : Set := {
  elev0 : double;     (* [elev] in [calc_solar_parameters] *)
  soldist0 : double;  (* [soldist] in [calc_solar_parameters] *)
  cza0 : float        (* [cza] in [calc_wbgt] *)
}.

(** ** Constants of the source *)

Local Open Scope double_scope.

Definition TRUE : int := 1%Z.
Definition FALSE : int := 0%Z.

Definition PI : double := 3.1415926535897932.
Definition TWOPI : double := 6.2831853071795864.
Definition DEG_RAD : double := 0.017453292519943295.
Definition RAD_DEG : double := 57.295779513082323.

Definition SOLAR_CONST : double := 1367.0.
Definition GRAVITY : double := 9.807.
Definition STEFANB : double := 5.6696E-8.
Definition Cp : double := 1003.5.
Definition M_AIR : double := 28.97.
Definition M_H2O : double := 18.015.
Definition RATIO : double := Cp * M_AIR / M_H2O.
Definition R_GAS : double := 8314.34.
Definition R_AIR : double := R_GAS / M_AIR.
Definition Pr : double := Cp / (Cp + 1.25 * R_AIR).

Definition EMIS_WICK : double := 0.95.
Definition ALB_WICK : double := 0.4.
Definition D_WICK : double := 0.007.
Definition L_WICK : double := 0.0254.

Definition EMIS_GLOBE : double := 0.95.
Definition ALB_GLOBE : double := 0.05.
Definition D_GLOBE : double := 0.0508.

Definition EMIS_SFC : double := 0.999.
Definition ALB_SFC : double := 0.45.

Definition CZA_MIN : double := 0.00873.
Definition NORMSOLAR_MAX : double := 0.85.
Definition REF_HEIGHT : double := 2.0.
Definition MIN_SPEED : double := 0.13.
Definition CONVERGENCE : double := 0.02.
Definition MAX_ITER : int := 50%Z.

(** The value that [Tglobe] and [Twb] return when they did not converge. *)
Definition SENTINEL : float := to_float (- 9999.0).

(** ** Loops *)

(** [do { body } while (cond)]: [None] when the fuel runs out before the
    condition fails. *)
Fixpoint do_while {S : Type} (fuel : nat) (body : S -> S) (cond : S -> bool)
    (s : S) : option S :=
  match fuel with
  | O => None
  | Datatypes.S n =>
      let s' := body s in
      if cond s' then do_while n body cond s' else Some s'
  end.

(** A small error monad: [None] is an access outside an array, or a loop that
    ran out of fuel. *)
Definition bind {A B : Type} (x : option A) (f : A -> option B) : option B :=
  match x with
  | Some a => f a
  | None => None
  end.

Notation "'get' x <- e ;; k" := (bind e (fun x => k))
  (at level 10, x name, e at level 100, k at level 200).

(** Control flow of a function body with early [return]s. *)
Inductive flow (A : Type) : Type :=
| Next (a : A)          (* fall through to the next statement *)
| Return (code : int)   (* [return (code);] *)
| Undefined.            (* an access outside an array *)
Arguments Next {A} a.
Arguments Return {A} code.
Arguments Undefined {A}.

Definition flow_bind {A B : Type} (x : flow A) (f : A -> flow B) : flow B :=
  match x with
  | Next a => f a
  | Return c => Return c
  | Undefined => Undefined
  end.

Definition flow_of_option {A : Type} (x : option A) : flow A :=
  match x with
  | Some a => Next a
  | None => Undefined
  end.

Notation "'run' x <- e ;; k" := (flow_bind e (fun x => k))
  (at level 10, x name, e at level 100, k at level 200).

Section Liljegren.

Variable M : Libm.
Variable spa_calculate : spa_data -> spa_output.

(** ** Physical properties *)

(** Saturation vapor pressure (mb) over liquid water ([phase = 0]) or ice. *)
Definition esat (tk : float) (phase : int) : float :=
  let es :=
    if (phase =? 0)%Z then
      let y := to_float ((tk - 273.15) / (tk - 32.18)) in
      to_float (6.1121 * exp M (17.502 * y))
    else
      let y := to_float ((tk - 273.15) / (tk - 0.6)) in
      to_float (6.1115 * exp M (22.452 * y)) in
  to_float (1.004 * es).

(** Dew point ([phase = 0]) or frost point temperature, K. *)
Definition dew_point (e : float) (phase : int) : float :=
  if (phase =? 0)%Z then
    let z := to_float (log M (e / (6.1121 * 1.004))) in
    to_float (273.15 + 240.97 * z / (17.502 - z))
  else
    let z := to_float (log M (e / (6.1115 * 1.004))) in
    to_float (273.15 + 272.55 * z / (22.452 - z)).

(** Viscosity of air, kg/(m s). *)
Definition viscosity (Tair : float) : float :=
  let sigma := to_float 3.617 in
  let eps_kappa := to_float 97.0 in
  let Tr := Tair /f eps_kappa in
  let omega := to_float ((Tr - 2.9) / 0.4 * (- 0.034) + 1.048) in
  to_float (2.6693E-6 * sqrt (M_AIR * Tair) / (sigma *f sigma *f omega)).

(** Thermal conductivity of air, W/(m K). *)
Definition thermal_cond (Tair : float) : float :=
  to_float ((Cp + 1.25 * R_AIR) * viscosity Tair).

(** Diffusivity of water vapor in air, m2/s. *)
Definition diffusivity (Tair Pair : float) : float :=
  let Pcrit_air := to_float 36.4 in
  let Pcrit_h2o := to_float 218.0 in
  let Tcrit_air := to_float 132.0 in
  let Tcrit_h2o := to_float 647.3 in
  let a := to_float 3.640E-4 in
  let b := to_float 2.334 in
  let Pcrit13 := to_float (pow M (Pcrit_air *f Pcrit_h2o) (1.0 / 3.0)) in
  let Tcrit512 := to_float (pow M (Tcrit_air *f Tcrit_h2o) (5.0 / 12.0)) in
  let Tcrit12 := to_float (sqrt (Tcrit_air *f Tcrit_h2o)) in
  let Mmix := to_float (sqrt (1.0 / M_AIR + 1.0 / M_H2O)) in
  let Patm := to_float (Pair / 1013.25) in
  to_float (a * pow M (Tair /f Tcrit12) b * Pcrit13 * Tcrit512 * Mmix
            / Patm * 1E-4).

(** Heat of evaporation, J/(kg K). *)
Definition evap (Tair : float) : float :=
  to_float ((313.15 - Tair) / 30.0 * (- 71100.0) + 2.4073E6).

(** Atmospheric emissivity. *)
Definition emis_atm (Tair rh : float) : float :=
  let e := rh *f esat Tair 0%Z in
  to_float (0.575 * pow M e 0.143).

(** Convective heat transfer coefficient for a long cylinder in cross flow. *)
Definition h_cylinder_in_air (diameter length Tair Pair speed : float)
    : float :=
  let a := to_float 0.56 in
  let b := to_float 0.281 in
  let c := to_float 0.4 in
  let density := to_float (Pair * 100.0 / (R_AIR * Tair)) in
  let Re := speed *f density *f diameter /f viscosity Tair in
  let Nu := to_float (b * pow M Re (1.0 - c) * pow M Pr (1.0 - a)) in
  Nu *f thermal_cond Tair /f diameter.

(** Convective heat transfer coefficient for flow around a sphere. *)
Definition h_sphere_in_air (diameter Tair Pair speed : float) : float :=
  let density := to_float (Pair * 100.0 / (R_AIR * Tair)) in
  let Re := speed *f density *f diameter /f viscosity Tair in
  let Nu := to_float (2.0 + 0.6 * sqrt Re * pow M Pr 0.3333) in
  Nu *f thermal_cond Tair /f diameter.

(** ** Globe temperature *)

(** The variables of [Tglobe] that live across iterations of its loop. *)
Record globe_state : Set := {
  g_iter : int;
  g_converged : bool;
  Tglobe_prev : float;
  Tglobe_new : float
}.

(** One pass through the body of the [do ... while] loop of [Tglobe]. *)
Definition Tglobe_body (Tair rh Pair speed solar fdir cza d_globe Tsfc : float)
    (s : globe_state) : globe_state :=
  let iter := iadd (g_iter s) 1%Z in
  let Tglobe_prev := Tglobe_prev s in
  let Tref := to_float (0.5 * (Tglobe_prev +f Tair)) in
  let h := h_sphere_in_air d_globe Tref Pair speed in
  let Tglobe_new :=
    to_float
      (pow M
         (0.5 * (emis_atm Tair rh * pow M Tair 4.0
                 + EMIS_SFC * pow M Tsfc 4.0)
          - h / (STEFANB * EMIS_GLOBE) * (Tglobe_prev -f Tair)
          + solar / (2.0 * STEFANB * EMIS_GLOBE) * (1.0 - ALB_GLOBE)
            * (fdir * (1.0 / (2.0 * cza) - 1.0) + 1.0 + ALB_SFC))
         0.25) in
  let converged :=
    if fabs (Tglobe_new -f Tglobe_prev) <? CONVERGENCE then true
    else g_converged s in
  let Tglobe_prev := to_float (0.9 * Tglobe_prev + 0.1 * Tglobe_new) in
  {| g_iter := iter; g_converged := converged;
     Tglobe_prev := Tglobe_prev; Tglobe_new := Tglobe_new |}.

(** [while (!converged && iter < MAX_ITER)] *)
Definition Tglobe_cond (s : globe_state) : bool :=
  negb (g_converged s) && (g_iter s <? MAX_ITER)%Z.

(** The state on entry to the loop.  [Tglobe_new] has no value yet in C; the
    body assigns it before anything reads it (see [Tglobe_body_new]). *)
Definition Tglobe_init (Tair : float) : globe_state :=
  {| g_iter := 0%Z; g_converged := false;
     Tglobe_prev := Tair; Tglobe_new := Tair |}.

Definition Tglobe_return (s : globe_state) : float :=
  if g_converged s then to_float (Tglobe_new s - 273.15)
  else to_float (- 9999.0).

Definition Tglobe_d_globe (d_globe : float) : float :=
  if d_globe =? 0.0 then to_float D_GLOBE else d_globe.

Definition Tglobe_loop (fuel : nat)
    (Tair rh Pair speed solar fdir cza d_globe : float) : option globe_state :=
  let d_globe := Tglobe_d_globe d_globe in
  let Tsfc := Tair in
  do_while fuel
    (Tglobe_body Tair rh Pair speed solar fdir cza d_globe Tsfc)
    Tglobe_cond (Tglobe_init Tair).

Definition Tglobe_fuel (fuel : nat)
    (Tair rh Pair speed solar fdir cza d_globe : float) : option float :=
  option_map Tglobe_return
    (Tglobe_loop fuel Tair rh Pair speed solar fdir cza d_globe).

(** ** Natural and psychrometric wet bulb temperature *)

Record wb_state : Set := {
  w_iter : int;
  w_converged : bool;
  Twb_prev : float;
  Twb_new : float;
  heat : float
}.

(** One pass through the body of the [do ... while] loop of [Twb]. *)
Definition Twb_body (Tair rh Pair speed solar fdir : float) (rad : int)
    (Tsfc sza eair : float) (s : wb_state) : wb_state :=
  let a := to_float 0.56 in
  let iter := iadd (w_iter s) 1%Z in
  let Twb_prev := Twb_prev s in
  let Tref := to_float (0.5 * (Twb_prev +f Tair)) in
  let heat :=
    if (rad =? 1)%Z then
      let Fatm :=
        to_float
          (STEFANB * EMIS_WICK
           * (0.5 * (emis_atm Tair rh * pow M Tair 4.0
                     + EMIS_SFC * pow M Tsfc 4.0)
              - pow M Twb_prev 4.0)
           + (1.0 - ALB_WICK) * solar
             * ((1.0 - fdir) * (1.0 + 0.25 * D_WICK / L_WICK)
                + fdir * ((tan M sza / PI) + 0.25 * D_WICK / L_WICK)
                + ALB_SFC)) in
      Fatm /f h_cylinder_in_air (to_float D_WICK) (to_float L_WICK)
                Tref Pair speed
    else heat s in
  let ewick := esat Twb_prev 0%Z in
  let density := to_float (Pair * 100.0 / (R_AIR * Tref)) in
  let Sc := viscosity Tref /f (density *f diffusivity Tref Pair) in
  let Twb_new :=
    to_float (Tair - evap Tref / RATIO * (ewick -f eair) / (Pair -f ewick)
                     * pow M (Pr / Sc) a + heat) in
  let converged :=
    if fabs (Twb_new -f Twb_prev) <? CONVERGENCE then true
    else w_converged s in
  let Twb_prev := to_float (0.9 * Twb_prev + 0.1 * Twb_new) in
  {| w_iter := iter; w_converged := converged;
     Twb_prev := Twb_prev; Twb_new := Twb_new; heat := heat |}.

(** [while (!converged && iter < MAX_ITER)] *)
Definition Twb_cond (s : wb_state) : bool :=
  negb (w_converged s) && (w_iter s <? MAX_ITER)%Z.

(** The state on entry to the loop: the first guess is the dew point and
    [heat] is 0.  [Twb_new] has no value yet in C; the body assigns it before
    anything reads it (see [Twb_body_new]). *)
Definition Twb_init (Tdew : float) : wb_state :=
  {| w_iter := 0%Z; w_converged := false;
     Twb_prev := Tdew; Twb_new := Tdew; heat := to_float 0.0 |}.

Definition Twb_return (s : wb_state) : float :=
  if w_converged s then to_float (Twb_new s - 273.15)
  else to_float (- 9999.0).

Definition Twb_loop (fuel : nat)
    (Tair rh Pair speed solar fdir cza : float) (rad : int)
    : option wb_state :=
  let Tsfc := Tair in
  let sza := to_float (acos M cza) in
  let eair := rh *f esat Tair 0%Z in
  let Tdew := dew_point eair 0%Z in
  do_while fuel
    (Twb_body Tair rh Pair speed solar fdir rad Tsfc sza eair)
    Twb_cond (Twb_init Tdew).

Definition Twb_fuel (fuel : nat)
    (Tair rh Pair speed solar fdir cza : float) (rad : int) : option float :=
  option_map Twb_return (Twb_loop fuel Tair rh Pair speed solar fdir cza rad).

(** Fuel for the two solvers: [Tglobe_fuel_enough] and [Twb_fuel_enough] show
    that it is never used up, and that more fuel changes nothing. *)
Definition loop_fuel : nat := Z.to_nat MAX_ITER.

Definition Tglobe := Tglobe_fuel loop_fuel.
Definition Twb := Twb_fuel loop_fuel.

(** ** Arrays *)

(** Reading element [i] of a C array: [None] outside the array. *)
Definition array_get {A : Type} (a : list A) (i : int) : option A :=
  if (i <? 0)%Z then None else nth_error a (Z.to_nat i).

(** ** Day number *)

Definition begmonth : list int :=
  [0; 0; 31; 59; 90; 120; 151; 181; 212; 243; 273; 304; 334]%Z.

Definition daynum (year month day : int) : option int :=
  if (year <? 1)%Z then Some (- 1)%Z
  else
    let leapyr :=
      ((irem year 4 =? 0)%Z && negb (irem year 100 =? 0)%Z)
      || (irem year 400 =? 0)%Z in
    get b <- array_get begmonth month ;;
    let dnum := iadd b day in
    let dnum := if leapyr && (month >? 2)%Z then iadd dnum 1%Z else dnum in
    Some dnum.

(** ** Wind speed at the reference height *)

Definition urban_exp : list float :=
  map to_float [0.15; 0.15; 0.20; 0.25; 0.30; 0.30].
Definition rural_exp : list float :=
  map to_float [0.07; 0.07; 0.10; 0.15; 0.35; 0.55].

Definition est_wind_speed (speed zspeed : float) (stability_class urban : int)
    (min_speed : float) : option float :=
  get exponent <-
    (if negb (urban =? 0)%Z
     then array_get urban_exp (isub stability_class 1%Z)
     else array_get rural_exp (isub stability_class 1%Z)) ;;
  let est_speed := to_float (speed * pow M (REF_HEIGHT / zspeed) exponent) in
  let est_speed := maxf est_speed min_speed in
  Some est_speed.

(** ** Stability class *)

Definition lsrdt : list (list int) :=
  [ [1; 1; 2; 4; 0; 5; 6; 0];
    [1; 2; 3; 4; 0; 5; 6; 0];
    [2; 2; 3; 4; 0; 4; 4; 0];
    [3; 3; 4; 4; 0; 0; 0; 0];
    [3; 4; 4; 4; 0; 0; 0; 0];
    [0; 0; 0; 0; 0; 0; 0; 0] ]%Z.

(** The row [i] and the column [j] that [stab_srdt] selects. *)
Definition stab_srdt_bins (daytime : int) (speed solar dT : float)
    : int * int :=
  if negb (daytime =? 0)%Z then
    let j :=
      if solar >=? 925.0 then 0%Z
      else if solar >=? 675.0 then 1%Z
      else if solar >=? 175.0 then 2%Z
      else 3%Z in
    let i :=
      if speed >=? 6.0 then 4%Z
      else if speed >=? 5.0 then 3%Z
      else if speed >=? 3.0 then 2%Z
      else if speed >=? 2.0 then 1%Z
      else 0%Z in
    (i, j)
  else
    let j := if dT >=? 0.0 then 6%Z else 5%Z in
    let i :=
      if speed >=? 2.5 then 2%Z
      else if speed >=? 2.0 then 1%Z
      else 0%Z in
    (i, j).

Definition stab_srdt (daytime : int) (speed solar dT : float) : option int :=
  let '(i, j) := stab_srdt_bins daytime speed solar dT in
  get row <- array_get lsrdt i ;;
  array_get row j.

(** ** Solar position *)

(** What [solarposition] writes through its six output pointers. *)
Record solpos : Set := {
  ap_ra : double;
  ap_dec : double;
  altitude : double;
  refraction : double;
  azimuth : double;
  distance : double
}.

(** The outcome of a call of [solarposition]: the value it returns, and the
    outputs when it wrote them ([None]: the pointers were left untouched). *)
Record solpos_result : Set := {
  sp_return : int;
  sp_written : option solpos
}.

(** The first half of [solarposition]: validation of the date and
    construction of [days_J2000], [cent_J2000] and [ut]. *)
Definition solarposition_date (year month : int) (day days_1900 : double)
    : flow (double * double * double) :=
  if negb (year =? 0)%Z then
    (* Date given by {year, month, day} or {year, 0, daynumber}. *)
    if (year <? 1950)%Z || (year >? 2049)%Z then Return (- 1)%Z
    else
      run daynumber <-
        (if negb (month =? 0)%Z then
           if (month <? 1)%Z || (month >? 12)%Z
              || (day <? 0.0) || (day >? 33.0)
           then Return (- 1)%Z
           else flow_of_option (daynum year month (int_of_double day))
         else
           if (day <? 0.0) || (day >? 368.0) then Return (- 1)%Z
           else Next (int_of_double day)) ;;
      let delta_years := isub year 2000%Z in
      let delta_days :=
        iadd (iadd (imul delta_years 365%Z) (idiv delta_years 4%Z))
             daynumber in
      let delta_days :=
        if (year >? 2000)%Z then iadd delta_days 1%Z else delta_days in
      let days_J2000 := D.of_int delta_days - 1.5 in
      let cent_J2000 := days_J2000 / 36525.0 in
      let ut := fst (modf day) in
      let days_J2000 := days_J2000 + ut in
      let ut := ut * 24.0 in
      Next (days_J2000, cent_J2000, ut)
  else
    (* Date given by days_1900. *)
    if (days_1900 <? 18262.0) || (days_1900 >? 54788.0) then Return (- 1)%Z
    else
      let days_J2000 := days_1900 - 36525.5 in
      let '(frac, integral) := modf days_1900 in
      let ut := frac * 24.0 in
      let cent_J2000 := (integral - 36525.5) / 36525.0 in
      Next (days_J2000, cent_J2000, ut).

(** The second half of [solarposition]: the position of the Sun. *)
Definition solarposition_compute (days_J2000 cent_J2000 ut : double)
    (latitude longitude : double) : solpos :=
  let pressure := 1013.25 in
  let temp := 15.0 in
  let mean_anomaly := 357.528 + 0.9856003 * days_J2000 in
  let mean_longitude := 280.460 + 0.9856474 * days_J2000 in
  (* Put mean_anomaly and mean_longitude in the range 0 -> 2 pi. *)
  let mean_anomaly := fst (modf (mean_anomaly / 360.0)) * TWOPI in
  let mean_longitude := fst (modf (mean_longitude / 360.0)) * TWOPI in
  let mean_obliquity := (23.439 - 4.0e-7 * days_J2000) * DEG_RAD in
  let ecliptic_long :=
    ((1.915 * sin M mean_anomaly) + (0.020 * sin M (2.0 * mean_anomaly)))
    * DEG_RAD + mean_longitude in
  let distance :=
    1.00014 - 0.01671 * cos M mean_anomaly
    - 0.00014 * cos M (2.0 * mean_anomaly) in
  let ap_ra :=
    atan2 M (cos M mean_obliquity * sin M ecliptic_long)
            (cos M ecliptic_long) in
  (* Change range of ap_ra from -pi -> pi to 0 -> 2 pi. *)
  let ap_ra := if ap_ra <? 0.0 then ap_ra + TWOPI else ap_ra in
  (* Put ap_ra in the range 0 -> 24 hours. *)
  let ap_ra := fst (modf (ap_ra / TWOPI)) * 24.0 in
  let ap_dec := asin M (sin M mean_obliquity * sin M ecliptic_long) in
  let gmst0h :=
    24110.54841
    + cent_J2000 * (8640184.812866
                    + cent_J2000 * (0.093104 - cent_J2000 * 6.2e-6)) in
  let gmst0h := fst (modf (gmst0h / 3600.0 / 24.0)) * 24.0 in
  let gmst0h := if gmst0h <? 0.0 then gmst0h + 24.0 else gmst0h in
  let lmst := gmst0h + (ut * 1.00273790934) + longitude / 15.0 in
  let lmst := fst (modf (lmst / 24.0)) * 24.0 in
  let lmst := if lmst <? 0.0 then lmst + 24.0 else lmst in
  let local_ha := lmst - ap_ra in
  (* Put hour angle in the range -12 to 12 hours. *)
  let local_ha :=
    if local_ha <? - 12.0 then local_ha + 24.0
    else if local_ha >? 12.0 then local_ha - 24.0
    else local_ha in
  (* Convert latitude and local_ha to radians. *)
  let latitude := latitude * DEG_RAD in
  let local_ha := local_ha / 24.0 * TWOPI in
  let cos_apdec := cos M ap_dec in
  let sin_apdec := sin M ap_dec in
  let cos_lat := cos M latitude in
  let sin_lat := sin M latitude in
  let cos_lha := cos M local_ha in
  let altitude :=
    asin M (sin_apdec * sin_lat + cos_apdec * cos_lha * cos_lat) in
  let cos_alt := cos M altitude in
  let tan_alt :=
    if fabs altitude <? 1.57079615 then tan M altitude else 6.0e6 in
  let cos_az :=
    (sin_apdec * cos_lat - cos_apdec * cos_lha * sin_lat) / cos_alt in
  let sin_az := - (cos_apdec * sin M local_ha / cos_alt) in
  let azimuth := acos M cos_az in
  (* Change range of azimuth from 0 -> pi to 0 -> 2 pi. *)
  let azimuth :=
    if atan2 M sin_az cos_az <? 0.0 then TWOPI - azimuth else azimuth in
  (* Convert ap_dec, altitude, and azimuth to degrees. *)
  let ap_dec := ap_dec * RAD_DEG in
  let altitude := altitude * RAD_DEG in
  let azimuth := azimuth * RAD_DEG in
  let refraction :=
    if (altitude <? - 1.0) || (tan_alt =? 6.0e6) then 0.0
    else if altitude <? 19.225 then
      let refraction :=
        (0.1594 + altitude * (0.0196 + 0.00002 * altitude)) * pressure in
      refraction
      / ((1.0 + altitude * (0.505 + 0.0845 * altitude)) * (273.0 + temp))
    else 0.00452 * (pressure / (273.0 + temp)) / tan_alt in
  let altitude := altitude + refraction in
  {| ap_ra := ap_ra; ap_dec := ap_dec; altitude := altitude;
     refraction := refraction; azimuth := azimuth; distance := distance |}.

(** [solarposition]: [None] stands for an access outside [begmonth], which
    [solarposition_defined] shows never to happen. *)
Definition solarposition (year month : int)
    (day days_1900 latitude longitude : double) : option solpos_result :=
  (* Check latitude and longitude for proper range before calculating
     dates. *)
  if (latitude <? - 90.0) || (latitude >? 90.0)
     || (longitude <? - 180.0) || (longitude >? 180.0)
  then Some {| sp_return := (- 1)%Z; sp_written := None |}
  else
    match solarposition_date year month day days_1900 with
    | Return code => Some {| sp_return := code; sp_written := None |}
    | Undefined => None
    | Next (days_J2000, cent_J2000, ut) =>
        Some {| sp_return := 0%Z;
                sp_written :=
                  Some (solarposition_compute days_J2000 cent_J2000 ut
                          latitude longitude) |}
    end.

(** ** Solar parameters *)

Variable U : indeterminate.

(** The value of [calc_solar_parameters] and what it leaves in [*solar],
    [*cza] and [*fdir]. *)
Record solar_parameters : Set := {
  csp_return : int;
  csp_solar : float;
  csp_cza : float;
  csp_fdir : float
}.

(** The cosine of the zenith angle and the Earth-Sun distance that the
    first half of [calc_solar_parameters] arrives at.  [cza] is the value
    that [*cza] holds on entry. *)
Definition calc_solar_geometry (year month : int) (day : double)
    (lat lon : float) (use_spa : int) (cza : float)
    : option (float * double) :=
  let days_1900 := 0.0 in
  if (use_spa =? 0)%Z then
    (* the value that [solarposition] returns is dropped *)
    get sp <- solarposition year month day days_1900 lat lon ;;
    let elev :=
      match sp_written sp with Some p => altitude p | None => elev0 U end in
    let soldist :=
      match sp_written sp with Some p => distance p | None => soldist0 U end in
    Some (to_float (cos M ((90.0 - elev) * DEG_RAD)), soldist)
  else
    let spa_day := int_of_double day in
    let seconds :=
      int_of_double (round ((day - D.of_int spa_day) * D.of_int 86400%Z)) in
    let spa_hour := int_of_double (D.of_int seconds / 3600.0) in
    let seconds := irem seconds 3600%Z in
    let spa_minute := int_of_double (D.of_int seconds / 60.0) in
    let spa :=
      {| spa_latitude := lat; spa_longitude := lon;
         spa_year := year; spa_month := month; spa_day := spa_day;
         spa_hour := spa_hour; spa_minute := spa_minute;
         spa_second := D.of_int (irem seconds 60%Z);
         spa_pressure := 1010.0; spa_temperature := 10.0;
         spa_elevation := 0.0; spa_delta_t := 0.0;
         spa_delta_ut1 := 0.0 |} in
    let out := spa_calculate spa in
    if (spa_result out =? 0)%Z
    then Some (to_float (cos M (spa_zenith out * DEG_RAD)), spa_r out)
    else (* "SPA failed" is printed; [*cza] and [soldist] keep what they
            held *)
      Some (cza, soldist0 U).

(** The second half of [calc_solar_parameters]: the irradiance made
    consistent with the top of the atmosphere, and the direct-beam
    fraction. *)
Definition calc_solar_partition (solar cza : float) (soldist : double)
    : solar_parameters :=
  let toasolar := to_float (SOLAR_CONST * max 0.0 cza / (soldist * soldist)) in
  (* if the sun is not fully above the horizon
     set the maximum (top of atmosphere) solar = 0 *)
  let toasolar := if cza <? CZA_MIN then to_float 0.0 else toasolar in
  if toasolar >? 0.0 then
    let normsolar := to_float (min (solar /f toasolar) NORMSOLAR_MAX) in
    let solar := normsolar *f toasolar in
    let fdir :=
      if normsolar >? 0.0 then
        let fdir :=
          to_float (exp M (3.0 - 1.34 * normsolar - 1.65 / normsolar)) in
        to_float (max (min fdir 0.9) 0.0)
      else to_float 0.0 in
    {| csp_return := 0%Z; csp_solar := solar; csp_cza := cza;
       csp_fdir := fdir |}
  else
    {| csp_return := 0%Z; csp_solar := to_float 0.0; csp_cza := cza;
       csp_fdir := to_float 0.0 |}.

Definition calc_solar_parameters (year month : int) (day : double)
    (lat lon : float) (use_spa : int) (solar cza : float)
    : option solar_parameters :=
  get g <- calc_solar_geometry year month day lat lon use_spa cza ;;
  let '(cza, soldist) := g in
  Some (calc_solar_partition solar cza soldist).

(** ** Wet bulb-globe temperature *)

(** The value of [calc_wbgt] and what it writes through its six output
    pointers. *)
Record wbgt_result : Set := {
  wbgt_return : int;
  est_speed : float;
  solar_adj : float;
  Tg : float;
  Tnwb : float;
  Tpsy : float;
  Twbg : float
}.

Definition calc_wbgt (year month day hour minute second gmt avg : int)
    (lat lon solar pres Tair relhum speed zspeed dT : float)
    (urban use_spa : int) (min_speed d_globe : float) : option wbgt_result :=
  (* Set min speed as maximum of input value and MIN_SPEED *)
  let min_speed := to_float (max min_speed MIN_SPEED) in
  (* convert time to GMT and center in avg period *)
  let hour_gmt :=
    D.of_int (isub hour gmt)
    + (D.of_int minute - 0.5 * D.of_int avg + D.of_int second / 60.0) / 60.0 in
  let dday := D.of_int day + hour_gmt / 24.0 in
  get sp <- calc_solar_parameters year month dday lat lon use_spa solar
              (cza0 U) ;;
  let solar := csp_solar sp in
  let cza := csp_cza sp in
  let fdir := csp_fdir sp in
  let solar_adj := solar in
  (* estimate the wind speed, if necessary *)
  get est_speed <-
    (if negb (zspeed =? REF_HEIGHT) then
       let daytime := if cza >? 0.0 then TRUE else FALSE in
       get stability_class <- stab_srdt daytime speed solar dT ;;
       est_wind_speed speed zspeed stability_class urban min_speed
     else Some (maxf speed min_speed)) ;;
  let speed := est_speed in
  (* Set default d_globe size if not defined (i.e., zero) *)
  let d_globe := if d_globe =? 0.0 then to_float D_GLOBE else d_globe in
  (* unit conversions *)
  let tk := to_float (Tair + 273.15) in
  let rh := to_float (0.01 * relhum) in
  get Tg <- Tglobe tk rh pres speed solar fdir cza d_globe ;;
  get Tnwb <- Twb tk rh pres speed solar fdir cza 1%Z ;;
  get Tpsy <- Twb tk rh pres speed solar fdir cza 0%Z ;;
  let Twbg := to_float (0.1 * Tair + 0.2 * Tg + 0.7 * Tnwb) in
  if (Tg =f? F.of_int (- 9999)%Z) || (Tnwb =f? F.of_int (- 9999)%Z) then
    Some {| wbgt_return := (- 1)%Z; est_speed := est_speed;
            solar_adj := solar_adj; Tg := Tg; Tnwb := Tnwb; Tpsy := Tpsy;
            Twbg := F.of_int (- 9999)%Z |}
  else
    Some {| wbgt_return := 0%Z; est_speed := est_speed;
            solar_adj := solar_adj; Tg := Tg; Tnwb := Tnwb; Tpsy := Tpsy;
            Twbg := Twbg |}.

End Liljegren.

(** ** A reference C library

    Every function computes its result in fixed point from convergent
    series and rounds it once to binary64.  The computation is first made
    with 80 fractional bits; when the bound on its error leaves the
    rounding undecided it is made again with 160 bits (Ziv's strategy).
    Results are correctly rounded, except possibly when the exact value
    lies within about [2^-90] (relative) of the midpoint of two doubles. *)

Module RefLibm.

Local Open Scope Z_scope.

(** The fractional bits of a fixed-point computation, the number of terms
    of its series, and its constants. *)
Record fixed : Set := {
  P : Z;
  n_atanh : nat;
  n_atan : nat;
  n_exp : nat;
  n_trig : nat;
  LN2 : Z;
  PI_fx : Z;
  SQRT_HALF : Z;
  N_red : Z;          (* bits of [pi / 2] for the reduction of angles *)
  HALF_PI_red : Z
}.

(** [sum_k (+-) pw * t2^k / (2 k + 1)], [n] terms from [k] on, with [p]
    fractional bits. *)
Fixpoint odd_series (p : Z) (alt : bool) (n : nat) (k : Z) (t2 pw acc : Z)
    : Z :=
  match n with
  | O => acc
  | S n' =>
      let term := pw / (2 * k + 1) in
      odd_series p alt n' (k + 1) t2 (Z.shiftr (pw * t2) p)
        (if alt && Z.odd k then acc - term else acc + term)
  end.

(** [pi] with [N] fractional bits, by Machin's formula. *)
Definition atan_inv (N : Z) (n : Z) : Z :=
  let one := 2 ^ N in
  odd_series N true 620 0 (one / (n * n)) (one / n) 0.

Definition pi_bits (N : Z) : Z :=
  Z.shiftr (16 * atan_inv (N + 16) 5 - 4 * atan_inv (N + 16) 239) 16.

(** [log 2] with [N] fractional bits, as [2 atanh (1/3)]. *)
Definition ln2_bits (N : Z) : Z :=
  let one := 2 ^ (N + 16) in
  Z.shiftr (2 * odd_series (N + 16) false 120 0 (one / 9) (one / 3) 0) 16.

Definition make_fixed (p : Z) (n1 n2 n3 n4 : nat) : fixed :=
  {| P := p; n_atanh := n1; n_atan := n2; n_exp := n3; n_trig := n4;
     LN2 := ln2_bits p; PI_fx := pi_bits p;
     SQRT_HALF := Z.sqrt (2 ^ (2 * p - 1));
     N_red := p + 96; HALF_PI_red := pi_bits (p + 96) / 2 |}.

Definition fast : fixed := Eval vm_compute in make_fixed 80 18 14 25 13.
Definition careful : fixed := Eval vm_compute in make_fixed 160 34 26 42 21.

(** [pi / 2] with enough bits for the reduction of the largest doubles. *)
Definition NBIG : Z := 1400.
Definition HALF_PI_BIG : Z := Eval vm_compute in pi_bits NBIG / 2.

Section Fixed.

Variable c : fixed.

Definition ONE : Z := 2 ^ P c.
Definition HALF_PI : Z := PI_fx c / 2.
Definition QUARTER_PI : Z := PI_fx c / 4.

Definition fmul (a b : Z) : Z := Z.shiftr (a * b) (P c).
Definition fdiv (a b : Z) : Z := Z.shiftl a (P c) / b.

(** [atanh t] for [0 <= t <= 0.172]. *)
Definition atanh_fx (t : Z) : Z :=
  odd_series (P c) false (n_atanh c) 0 (fmul t t) t 0.

(** [atan t] for [0 <= t <= 0.1]. *)
Definition atan_small_fx (t : Z) : Z :=
  odd_series (P c) true (n_atan c) 0 (fmul t t) t 0.

(** [sum_{j >= k} r^j / j!], given [term = r^(k-1) / (k-1)!]. *)
Fixpoint exp_series (n : nat) (k : Z) (r term acc : Z) : Z :=
  match n with
  | O => acc
  | S n' =>
      let term' := fmul term r / k in
      exp_series n' (k + 1) r term' (acc + term')
  end.

(** [exp r] for [0 <= r < 1]. *)
Definition exp_fx (r : Z) : Z := exp_series (n_exp c) 1 r ONE ONE.

Fixpoint trig_series (n : nat) (j : Z) (r2 term acc : Z) (plus : bool) : Z :=
  match n with
  | O => acc
  | S n' =>
      let term' := fmul term r2 / ((j + 1) * (j + 2)) in
      trig_series n' (j + 2) r2 term'
        (if plus then acc + term' else acc - term') (negb plus)
  end.

(** [cos r] and [sin r] for [0 <= r <= 1]. *)
Definition cos_fx (r : Z) : Z :=
  trig_series (n_trig c) 0 (fmul r r) ONE ONE false.
Definition sin_fx (r : Z) : Z :=
  trig_series (n_trig c) 1 (fmul r r) r r false.

(** [atan t] for [0 <= t <= 1]: three halvings of the angle, then the
    series. *)
Definition atan_half (t : Z) : Z :=
  fdiv t (ONE + Z.sqrt (ONE * ONE + t * t)).

Definition atan_fx (t : Z) : Z :=
  8 * atan_small_fx (atan_half (atan_half (atan_half t))).

Definition to_fx (m : positive) (e : Z) : Z := Z.shiftl (Zpos m) (e + P c).

(** [x * 2^(k - P)], rounded to binary64, with sign [s]. *)
Definition of_fx (s : bool) (x : Z) (k : Z) : spec_float :=
  binary_normalize prec64 emax64 (if s then - x else x) (k - P c) s.

(** [exp (w / 2^P)] as a mantissa in [[1, 2)] and a binary exponent. *)
Definition exp_parts (w : Z) : Z * Z :=
  let k := w / LN2 c in
  (exp_fx (w - k * LN2 c), k).

(** [log (m * 2^e)]. *)
Definition log_fx (m : positive) (e : Z) : Z :=
  let d := Zdigits2 (Zpos m) in
  let f := Z.shiftl (Zpos m) (P c - d) in
  let '(f, ex) :=
    if f <? SQRT_HALF c then (2 * f, e + d - 1) else (f, e + d) in
  let num := f - ONE in
  let l := 2 * atanh_fx (fdiv (Z.abs num) (f + ONE)) in
  (if num <? 0 then - l else l) + ex * LN2 c.

(** The quadrant of [m * 2^e >= 0], and what is left of it after the
    multiples of [pi / 2] are taken away. *)
Definition reduce_with (N half_pi : Z) (m : positive) (e : Z) : Z * Z :=
  let x := Z.shiftl (Zpos m) (e + N) in
  ((x / half_pi) mod 4, Z.shiftr (x mod half_pi) (N - P c)).

Definition reduce (m : positive) (e : Z) : Z * Z :=
  if Zdigits2 (Zpos m) + e <=? 64
  then reduce_with (N_red c) (HALF_PI_red c) m e
  else reduce_with NBIG HALF_PI_BIG m e.

(** Sine and cosine of [r] in [[0, pi/2)]. *)
Definition sincos_fx (r : Z) : Z * Z :=
  if r <=? QUARTER_PI then (sin_fx r, cos_fx r)
  else let r' := HALF_PI - r in (cos_fx r', sin_fx r').

(** Sine and cosine of [m * 2^e >= 0], signed. *)
Definition sincos (m : positive) (e : Z) : Z * Z :=
  let '(q, r) := reduce m e in
  let '(s, c) := sincos_fx r in
  if q =? 0 then (s, c)
  else if q =? 1 then (c, - s)
  else if q =? 2 then (- s, - c)
  else (- c, s).

(** The angle in [[0, pi]] of the point [(x, y)], [y >= 0], not both 0. *)
Definition angle_fx (y x : Z) : Z :=
  let a := Z.abs x in
  let t := if y <=? a then atan_fx (fdiv y a)
           else HALF_PI - atan_fx (fdiv a y) in
  if x <? 0 then PI_fx c - t else t.

(** [sqrt (1 - x^2)] for [0 <= x <= 1]. *)
Definition cosine_of_sine (x : Z) : Z := Z.sqrt (ONE * ONE - x * x).

End Fixed.

(** *** Rounding, with a second computation when the first is too coarse *)

Definition sf_same (x y : spec_float) : bool :=
  match x, y with
  | S754_zero a, S754_zero b | S754_infinity a, S754_infinity b =>
      Bool.eqb a b
  | S754_finite a m e, S754_finite b m' e' =>
      Bool.eqb a b && Pos.eqb m m' && Z.eqb e e'
  | S754_nan, S754_nan => true
  | _, _ => false
  end.

(** A result [(s, x, k, err)] stands for [+- x * 2^(k - P)], known up to
    [err] units of the last fixed-point place. *)
Definition approx : Set := bool * Z * Z * Z.

Definition round_approx (c : fixed) (a : approx) : option spec_float :=
  let '(s, x, k, err) := a in
  if x <=? err then None
  else
    let lo := of_fx c s (x - err) k in
    if sf_same lo (of_fx c s (x + err) k) then Some lo else None.

Definition ziv (f : fixed -> approx) : spec_float :=
  match round_approx fast (f fast) with
  | Some r => r
  | None => let '(s, x, k, _) := f careful in of_fx careful s x k
  end.

Definition sf_of_Z (z : Z) : spec_float :=
  match z with
  | Z0 => S754_zero false
  | Zpos p => S754_finite false p 0
  | Zneg p => S754_finite true p 0
  end.

Definition sf_one : spec_float := S754_finite false 4503599627370496 (-52).

(** [|m * 2^e| < 2 ^ magnitude m e] *)
Definition magnitude (m : positive) (e : Z) : Z := Zdigits2 (Zpos m) + e.

(** *** exp, log, pow *)

Definition exp_approx (s : bool) (m : positive) (e : Z) (c : fixed) : approx :=
  let '(x, k) := exp_parts c (if s then - to_fx c m e else to_fx c m e) in
  (false, x, k, 2 ^ 13).

Definition exp_sf (x : spec_float) : spec_float :=
  match x with
  | S754_nan => S754_nan
  | S754_infinity false => x
  | S754_infinity true => S754_zero false
  | S754_zero _ => sf_one
  | S754_finite s m e =>
      if magnitude m e <? - 60 then sf_one
      else if 11 <? magnitude m e then
        if s then S754_zero false else S754_infinity false
      else ziv (exp_approx s m e)
  end.

Definition is_one (m : positive) (e : Z) : bool :=
  (e <=? 0) && (Zpos m =? 2 ^ (- e)).

Definition log_approx (m : positive) (e : Z) (c : fixed) : approx :=
  let l := log_fx c m e in (l <? 0, Z.abs l, 0, 2 ^ 12).

Definition log_sf (x : spec_float) : spec_float :=
  match x with
  | S754_nan => S754_nan
  | S754_infinity false => x
  | S754_infinity true => S754_nan
  | S754_zero _ => S754_infinity true
  | S754_finite true _ _ => S754_nan
  | S754_finite false m e =>
      if is_one m e then S754_zero false else ziv (log_approx m e)
  end.

Definition is_int (m : positive) (e : Z) : bool :=
  (0 <=? e) || (Z.land (Zpos m) (2 ^ (- e) - 1) =? 0).

Definition is_odd_int (m : positive) (e : Z) : bool :=
  if 0 <? e then false
  else is_int m e && Z.odd (Z.shiftr (Zpos m) (- e)).

Definition sf_is_odd_int (y : spec_float) : bool :=
  match y with
  | S754_finite _ m e => is_odd_int m e
  | _ => false
  end.

Definition sf_neg (y : spec_float) : bool :=
  match y with
  | S754_zero s | S754_infinity s | S754_finite s _ _ => s
  | S754_nan => false
  end.

(** [x ^ n] for a small integer exponent [n <> 0], rounded once. *)
Definition pow_int (sx : bool) (mx : positive) (ex : Z) (n : Z) : spec_float :=
  let a := Z.abs n in
  let s := sx && Z.odd a in
  let p := S754_finite s (Pos.pow mx (Z.to_pos a)) (ex * a) in
  if 0 <? n then sf_round prec64 emax64 p
  else SFdiv prec64 emax64 (S754_finite false 1 0) p.

(** [|x| ^ y = exp (y log |x|)] for [|y log |x|| < 2^12]. *)
Definition pow_approx (s : bool) (mx : positive) (ex : Z)
    (sy : bool) (my : positive) (ey : Z) (c : fixed) : approx :=
  let l := log_fx c mx ex in
  let w := Z.shiftl (Zpos my * Z.abs l) ey in
  let '(x, k) := exp_parts c (if Bool.eqb sy (l <? 0) then w else - w) in
  (s, x, k, 2 ^ (14 + Z.max 0 (magnitude my ey))).

Definition pow_finite (sx : bool) (mx : positive) (ex : Z)
    (sy : bool) (my : positive) (ey : Z) : spec_float :=
  if sx && negb (is_int my ey) then S754_nan
  else
    let s := sx && is_odd_int my ey in
    if is_one mx ex then (if s then SFopp sf_one else sf_one)
    else if is_int my ey && (magnitude my ey <=? 5) then
      let n := Z.shiftl (Zpos my) ey in
      pow_int sx mx ex (if sy then - n else n)
    else
      let l := log_fx fast mx ex in
      if 12 <? magnitude my ey + Zdigits2 l - P fast then
        if Bool.eqb sy (l <? 0) then S754_infinity s else S754_zero s
      else ziv (pow_approx s mx ex sy my ey).

Definition pow_sf (x y : spec_float) : spec_float :=
  match x, y with
  | _, S754_zero _ => sf_one
  | S754_nan, _ => S754_nan
  | S754_finite false mx ex, S754_nan =>
      if is_one mx ex then sf_one else S754_nan
  | _, S754_nan => S754_nan
  | S754_zero sx, _ =>
      let s := sx && sf_is_odd_int y in
      if sf_neg y then S754_infinity s else S754_zero s
  | S754_infinity sx, _ =>
      let s := sx && sf_is_odd_int y in
      if sf_neg y then S754_zero s else S754_infinity s
  | S754_finite _ mx ex, S754_infinity sy =>
      if is_one mx ex then sf_one
      else if Bool.eqb (magnitude mx ex <=? 0) sy
      then S754_infinity false else S754_zero false
  | S754_finite sx mx ex, S754_finite sy my ey =>
      pow_finite sx mx ex sy my ey
  end.

(** *** sin, cos, tan *)

Definition signed_approx (v : Z) : approx := (v <? 0, Z.abs v, 0, 2 ^ 12).

Definition sin_approx (s : bool) (m : positive) (e : Z) (c : fixed) : approx :=
  let v := fst (sincos c m e) in signed_approx (if s then - v else v).

Definition cos_approx (m : positive) (e : Z) (c : fixed) : approx :=
  signed_approx (snd (sincos c m e)).

Definition sin_sf (x : spec_float) : spec_float :=
  match x with
  | S754_nan | S754_infinity _ => S754_nan
  | S754_zero _ => x
  | S754_finite s m e =>
      if magnitude m e <? - 30 then x else ziv (sin_approx s m e)
  end.

Definition cos_sf (x : spec_float) : spec_float :=
  match x with
  | S754_nan | S754_infinity _ => S754_nan
  | S754_zero _ => sf_one
  | S754_finite s m e =>
      if magnitude m e <? - 30 then sf_one else ziv (cos_approx m e)
  end.

(** The quotient of the sine by the cosine, both known up to [err]. *)
Definition tan_quotient (s : bool) (v w err : Z) : option spec_float :=
  let neg := xorb s (xorb (v <? 0) (w <? 0)) in
  let a := Z.abs v in
  let b := Z.abs w in
  let q x y :=
    SFdiv prec64 emax64 (sf_of_Z (if neg then - x else x)) (sf_of_Z y) in
  if (a <=? err) || (b <=? err) then None
  else
    let lo := q (a - err) (b + err) in
    if sf_same lo (q (a + err) (b - err)) then Some lo else None.

Definition tan_sf (x : spec_float) : spec_float :=
  match x with
  | S754_nan | S754_infinity _ => S754_nan
  | S754_zero _ => x
  | S754_finite s m e =>
      if magnitude m e <? - 30 then x
      else
        let '(v, w) := sincos fast m e in
        match tan_quotient s v w (2 ^ 12) with
        | Some r => r
        | None =>
            let '(v, w) := sincos careful m e in
            SFdiv prec64 emax64 (sf_of_Z (if s then - v else v)) (sf_of_Z w)
        end
  end.

(** *** atan2, asin, acos *)

Definition sf_pi (s : bool) (num den : Z) : spec_float :=
  of_fx careful s (num * PI_fx careful / den) 0.

Definition atan2_finite (sy : bool) (my : positive) (ey : Z)
    (sx : bool) (mx : positive) (ex : Z) : spec_float :=
  if negb sx && (magnitude my ey - magnitude mx ex <? - 60) then
    SFdiv prec64 emax64 (S754_finite sy my ey) (S754_finite sx mx ex)
  else
    let e0 := Z.min ey ex in
    let y := Z.shiftl (Zpos my) (ey - e0) in
    let x := Z.shiftl (Zpos mx) (ex - e0) in
    of_fx careful sy (angle_fx careful y (if sx then - x else x)) 0.

Definition atan2_sf (y x : spec_float) : spec_float :=
  match y, x with
  | S754_nan, _ | _, S754_nan => S754_nan
  | S754_zero sy, (S754_zero sx | S754_finite sx _ _ | S754_infinity sx) =>
      if sx then sf_pi sy 1 1 else S754_zero sy
  | (S754_finite sy _ _ | S754_infinity sy), S754_zero _ => sf_pi sy 1 2
  | S754_infinity sy, S754_infinity sx =>
      if sx then sf_pi sy 3 4 else sf_pi sy 1 4
  | S754_infinity sy, S754_finite _ _ _ => sf_pi sy 1 2
  | S754_finite sy _ _, S754_infinity sx =>
      if sx then sf_pi sy 1 1 else S754_zero sy
  | S754_finite sy my ey, S754_finite sx mx ex =>
      atan2_finite sy my ey sx mx ex
  end.

Definition asin_sf (x : spec_float) : spec_float :=
  match x with
  | S754_nan | S754_infinity _ => S754_nan
  | S754_zero _ => x
  | S754_finite s m e =>
      if magnitude m e <? - 30 then x
      else
        let v := to_fx careful m e in
        if ONE careful <? v then S754_nan
        else of_fx careful s (angle_fx careful v (cosine_of_sine careful v)) 0
  end.

Definition acos_sf (x : spec_float) : spec_float :=
  match x with
  | S754_nan | S754_infinity _ => S754_nan
  | S754_zero _ => sf_pi false 1 2
  | S754_finite s m e =>
      let v := to_fx careful m e in
      if ONE careful <? v then S754_nan
      else of_fx careful false
             (angle_fx careful (cosine_of_sine careful v)
                (if s then - v else v)) 0
  end.

Definition lift1 (f : spec_float -> spec_float) (x : double) : double :=
  Dbl (f (dbits x)).
Definition lift2 (f : spec_float -> spec_float -> spec_float)
    (x y : double) : double :=
  Dbl (f (dbits x) (dbits y)).

Definition libm : Libm :=
  {| exp := lift1 exp_sf; log := lift1 log_sf; pow := lift2 pow_sf;
     sin := lift1 sin_sf; cos := lift1 cos_sf; tan := lift1 tan_sf;
     asin := lift1 asin_sf; acos := lift1 acos_sf; atan2 := lift2 atan2_sf |}.

End RefLibm.

(** ** Concrete parameters *)

(** A stand-in for the solar position algorithm of [spa_c.h], for runs of
    the model that select the built-in [solarposition] ([use_spa = 0]) and
    so never call it: every call reports a failure. *)
Definition spa_unavailable (d : spa_data) : spa_output :=
  {| spa_result := 1%Z; spa_zenith := D.nan; spa_r := D.nan |}.

(** Indeterminate values, for runs of the model that read none of them. *)
Definition no_junk : indeterminate :=
  {| elev0 := D.nan; soldist0 := D.nan; cza0 := Flt S754_nan |}.

(** Indeterminate values for a run that does read them: what the three
    locals might hold from an earlier call. *)
Definition stale_values : indeterminate :=
  {| elev0 := 60.0%D; soldist0 := 1.0%D; cza0 := to_float 0.5%D |}.

(** * Vocabulary of the properties *)

Local Open Scope Z_scope.

(** The ranges that [solarposition] accepts, in the words of its checks. *)
Definition latlon_out_of_range (latitude longitude : double) : bool :=
  ((latitude <? - 90.0) || (latitude >? 90.0)
   || (longitude <? - 180.0) || (longitude >? 180.0))%D.

Definition year_out_of_range (year : int) : bool :=
  (year <? 1950) || (year >? 2049).

(** [day] is a day of the month when [month] is not 0 and a day of the year
    when it is. *)
Definition day_out_of_range (month : int) (day : double) : bool :=
  if negb (month =? 0)
  then (month <? 1) || (month >? 12) || (day <? 0.0)%D || (day >? 33.0)%D
  else ((day <? 0.0) || (day >? 368.0))%D.

Definition days_1900_out_of_range (days_1900 : double) : bool :=
  ((days_1900 <? 18262.0) || (days_1900 >? 54788.0))%D.

(** The date is given by [year], [month] and [day] when [year] is not 0, and
    by [days_1900] when it is. *)
Definition date_out_of_range (year month : int) (day days_1900 : double)
    : bool :=
  if negb (year =? 0)
  then year_out_of_range year || day_out_of_range month day
  else days_1900_out_of_range days_1900.

Definition domain_error (year month : int)
    (day days_1900 latitude longitude : double) : bool :=
  latlon_out_of_range latitude longitude
  || date_out_of_range year month day days_1900.

(** The names that the claims use for the intermediate values of
    [calc_solar_parameters]. *)
Definition toasolar_of (cza : float) (soldist : double) : float :=
  let toasolar :=
    to_float (SOLAR_CONST * max 0.0 cza / (soldist * soldist))%D in
  if (cza <? CZA_MIN)%D then to_float 0.0%D else toasolar.

Definition normsolar_of (solar toasolar : float) : float :=
  to_float (min (solar /f toasolar) NORMSOLAR_MAX).

(** [x] clamped to [0, 0.9], the way the source does it. *)
Definition clamp_fdir (x : float) : float :=
  to_float (max (min x 0.9%D) 0.0%D).

(** The state of [Twb] after [k] passes through the body of its loop, had
    the loop not been left before. *)
Definition Twb_pass (M : Libm) (Tair rh Pair speed solar fdir cza : float)
    (rad : int) (k : nat) : wb_state :=
  let eair := rh *f esat M Tair 0 in
  Nat.iter k
    (Twb_body M Tair rh Pair speed solar fdir rad Tair
       (to_float (acos M cza)) eair)
    (Twb_init (dew_point M eair 0)).

(** The test [fabs(Twb_new - Twb_prev) < CONVERGENCE] of pass [k + 1]. *)
Definition Twb_close (M : Libm) (Tair rh Pair speed solar fdir cza : float)
    (rad : int) (k : nat) : bool :=
  let eair := rh *f esat M Tair 0 in
  let s := Twb_pass M Tair rh Pair speed solar fdir cza rad k in
  (fabs (Twb_new
           (Twb_body M Tair rh Pair speed solar fdir rad Tair
              (to_float (acos M cza)) eair s)
         -f Twb_prev s) <? CONVERGENCE)%D.

(** The same for [Tglobe]. *)
Definition Tglobe_pass (M : Libm)
    (Tair rh Pair speed solar fdir cza d_globe : float) (k : nat)
    : globe_state :=
  Nat.iter k
    (Tglobe_body M Tair rh Pair speed solar fdir cza
       (Tglobe_d_globe d_globe) Tair)
    (Tglobe_init Tair).

Definition Tglobe_close (M : Libm)
    (Tair rh Pair speed solar fdir cza d_globe : float) (k : nat) : bool :=
  let s := Tglobe_pass M Tair rh Pair speed solar fdir cza d_globe k in
  (fabs (Tglobe_new
           (Tglobe_body M Tair rh Pair speed solar fdir cza
              (Tglobe_d_globe d_globe) Tair s)
         -f Tglobe_prev s) <? CONVERGENCE)%D.

(** The condition [!converged && iter < MAX_ITER] of the two solver loops,
    over any state with a counter and a flag. *)
Definition loop_cond {S : Type} (count : S -> int) (conv : S -> bool)
    (N : Z) (s : S) : bool :=
  negb (conv s) && (count s <? N).

(** [never_close body close n s]: none of the next [n] passes from [s] finds
    its test satisfied; [close s s'] is the test of the pass that takes [s]
    to [s']. *)
Fixpoint never_close {S : Type} (body : S -> S) (close : S -> S -> bool)
    (n : nat) (s : S) : bool :=
  match n with
  | O => true
  | Datatypes.S n' =>
      let s' := body s in
      negb (close s s') && never_close body close n' s'
  end.

(** The test of [calc_wbgt] for a failed solve. *)
Definition is_sentinel (x : float) : bool := x =f? F.of_int (- 9999).

(** [calc_wbgt] reports a failure when the globe or the natural wet bulb
    solve returned the sentinel. *)
Definition solve_failed (r : wbgt_result) : bool :=
  is_sentinel (Tg r) || is_sentinel (Tnwb r).

(** The floor that [calc_wbgt] puts under the wind speed: the larger of
    [min_speed] and [MIN_SPEED], stored in a [float]. *)
Definition speed_floor (min_speed : float) : float :=
  to_float (max min_speed MIN_SPEED).

(** * Properties *)

(** ** Facts about rounding *)

Section Digits.

Lemma digits2_pos_size (p : positive) : digits2_pos p = Pos.size p.
Proof. induction p as [p IH | p IH |]; cbn; now rewrite ?IH. Qed.

Lemma Zdigits2_log2 (m : Z) : 0 < m -> Zdigits2 m = Z.log2 m + 1.
Proof.
  destruct m as [| p | p]; try lia. intros _.
  cbn [Zdigits2]. rewrite digits2_pos_size.
  destruct p as [p | p |]; cbn [Z.log2 Pos.size]; lia.
Qed.

Lemma Zdigits2_nonneg (m : Z) : 0 <= Zdigits2 m.
Proof. destruct m; cbn; lia. Qed.

Lemma Zdigits2_pos (m : Z) : 0 < m -> 0 < Zdigits2 m.
Proof.
  intros Hm. rewrite Zdigits2_log2 by exact Hm.
  pose proof (Z.log2_nonneg m). lia.
Qed.

Lemma Zdigits2_shift (m n : Z) :
  0 < m -> 0 <= n -> Zdigits2 (m * 2 ^ n) = Zdigits2 m + n.
Proof.
  intros Hm Hn.
  rewrite !Zdigits2_log2; [| lia | ].
  - rewrite Z.log2_mul_pow2 by lia. lia.
  - apply Z.mul_pos_pos; [exact Hm | apply Z.pow_pos_nonneg; lia].
Qed.

Lemma Zdigits2_div (m n : Z) :
  0 < m -> 0 <= n ->
  (0 < m / 2 ^ n /\ Zdigits2 (m / 2 ^ n) = Zdigits2 m - n)
  \/ (m / 2 ^ n = 0 /\ Zdigits2 m <= n).
Proof.
  intros Hm Hn.
  assert (Hp : 0 < 2 ^ n) by (apply Z.pow_pos_nonneg; lia).
  destruct (Z.lt_ge_cases m (2 ^ n)) as [Hlt | Hge].
  - right. split; [apply Z.div_small; lia |].
    rewrite Zdigits2_log2 by exact Hm.
    apply Z.log2_lt_pow2 in Hlt; lia.
  - left.
    assert (Hq : 0 < m / 2 ^ n).
    { apply Z.div_str_pos. lia. }
    split; [exact Hq |].
    rewrite !Zdigits2_log2 by assumption.
    rewrite <- Z.shiftr_div_pow2 by exact Hn.
    rewrite Z.log2_shiftr by exact Hm.
    assert (n <= Z.log2 m).
    { apply Z.log2_le_pow2; lia. }
    lia.
Qed.

Lemma Zdigits2_succ (m : Z) :
  0 <= m ->
  Zdigits2 (m + 1) = Zdigits2 m
  \/ (Zdigits2 (m + 1) = Zdigits2 m + 1 /\ m + 1 = 2 ^ Zdigits2 m).
Proof.
  intros Hm. destruct (Z.eq_dec m 0) as [-> | Hnz].
  - right. split; reflexivity.
  - assert (Hpos : 0 < m) by lia.
    rewrite (Zdigits2_log2 (m + 1)) by lia.
    rewrite (Zdigits2_log2 m) by lia.
    change (m + 1) with (Z.succ m) at 1. fold (Z.succ m).
    destruct (Z.log2_succ_or m) as [Hs | Hs].
    + right. split; [lia |].
      apply (Z.log2_eq_succ_iff_pow2 m Hpos) in Hs as Hb.
      destruct Hb as (b & Hb).
      assert (0 <= b).
      { destruct (Z.lt_ge_cases b 0) as [Hneg | ?]; [| lia].
        rewrite Z.pow_neg_r in Hb by lia. lia. }
      rewrite Hb in Hs. rewrite Z.log2_pow2 in Hs by lia.
      rewrite Hb. f_equal. lia.
    + left. lia.
Qed.

End Digits.

Section Shifts.

Lemma iter_pos_iter {A : Type} (f : A -> A) (n : positive) (x : A) :
  iter_pos f n x = Pos.iter f x n.
Proof.
  revert x. induction n as [n IH | n IH |]; intros x; cbn [iter_pos Pos.iter].
  - rewrite !IH. rewrite <- !Pos.iter_swap. reflexivity.
  - rewrite !IH. reflexivity.
  - reflexivity.
Qed.

Lemma shr_1_m (mrs : shr_record) :
  0 <= shr_m mrs -> shr_m (shr_1 mrs) = shr_m mrs / 2.
Proof.
  destruct mrs as [m r s]. cbn [shr_m]. intros Hm.
  rewrite <- Z.div2_div.
  destruct m as [| [p | p |] | p]; try lia; reflexivity.
Qed.

Lemma shr_iter_m (n : positive) (mrs : shr_record) :
  0 <= shr_m mrs ->
  shr_m (iter_pos shr_1 n mrs) = shr_m mrs / 2 ^ Zpos n.
Proof.
  intros Hm. rewrite iter_pos_iter.
  induction n as [| n IH] using Pos.peano_ind.
  - cbn [Pos.iter]. rewrite shr_1_m by exact Hm. reflexivity.
  - rewrite Pos.iter_succ, shr_1_m.
    + rewrite IH. rewrite Pos2Z.inj_succ, Z.pow_succ_r by lia.
      rewrite Z.div_div by (try apply Z.pow_pos_nonneg; lia).
      f_equal. lia.
    + rewrite IH. apply Z.div_pos; [exact Hm | apply Z.pow_pos_nonneg; lia].
Qed.

(** Shifting out zeros is exact. *)
Lemma shr_iter_exact (n : positive) (m : positive) :
  iter_pos shr_1 n
    {| shr_m := Zpos (Pos.iter xO m n); shr_r := false; shr_s := false |}
  = {| shr_m := Zpos m; shr_r := false; shr_s := false |}.
Proof.
  rewrite iter_pos_iter.
  induction n as [| n IH] using Pos.peano_ind.
  - reflexivity.
  - rewrite (Pos.iter_succ n _ xO), (Pos.iter_succ n _ shr_1).
    rewrite <- Pos.iter_swap. cbn [shr_1 orb]. exact IH.
Qed.

Lemma iter_xO (m d : positive) : Zpos (Pos.iter xO m d) = Zpos m * 2 ^ Zpos d.
Proof.
  induction d as [| d IH] using Pos.peano_ind.
  - cbn [Pos.iter]. lia.
  - rewrite Pos.iter_succ, Pos2Z.inj_xO, IH, Pos2Z.inj_succ, Z.pow_succ_r by lia.
    lia.
Qed.

End Shifts.

Section Round.

Variables prec emax : Z.
Hypothesis prec_pos : 0 < prec.

Lemma fexp_eq (x : Z) :
  fexp prec emax x = Z.max (x - prec) (3 - emax - prec).
Proof. reflexivity. Qed.

Lemma shr_fexp_spec (m e : Z) (l : location) (mrs : shr_record) (e' : Z) :
  0 <= m ->
  shr_fexp prec emax m e l = (mrs, e') ->
  let n := fexp prec emax (Zdigits2 m + e) - e in
  (n <= 0 /\ mrs = shr_record_of_loc m l /\ e' = e)
  \/ (0 < n /\ shr_m mrs = m / 2 ^ n /\ e' = e + n).
Proof.
  intros Hm H n. unfold shr_fexp, shr in H. fold n in H.
  destruct n as [| p | p] eqn:Hn.
  - left. injection H as <- <-. repeat split; lia.
  - right. injection H as <- <-. split; [lia |]. split; [| reflexivity].
    rewrite shr_iter_m; destruct l as [| []]; cbn [shr_record_of_loc shr_m];
      try reflexivity; exact Hm.
  - left. injection H as <- <-. repeat split; lia.
Qed.

Lemma shr_record_of_loc_m (m : Z) (l : location) :
  shr_m (shr_record_of_loc m l) = m.
Proof. destruct l as [| []]; reflexivity. Qed.

Lemma round_nearest_even_cases (m : Z) (l : location) :
  round_nearest_even m l = m \/ round_nearest_even m l = m + 1.
Proof.
  destruct l as [| []]; cbn [round_nearest_even]; auto.
  destruct (Z.even m); auto.
Qed.

(** A mantissa that has at least the digits that its exponent asks for is
    rounded to a well-formed number, a zero or an infinity. *)
Lemma binary_round_aux_valid (s : bool) (m : positive) (e : Z) :
  e <= fexp prec emax (Zdigits2 (Zpos m) + e) ->
  match binary_round_aux prec emax s (Zpos m) e loc_Exact with
  | S754_nan => False
  | S754_finite s' m' e' => s' = s /\ bounded prec emax m' e' = true
  | S754_zero s' | S754_infinity s' => s' = s
  end.
Proof.
  intros Hfit. unfold binary_round_aux.
  destruct (shr_fexp prec emax (Zpos m) e loc_Exact) as [mrs1 e1] eqn:H1.
  destruct (shr_fexp prec emax
              (round_nearest_even (shr_m mrs1) (loc_of_shr_record mrs1))
              e1 loc_Exact) as [mrs2 e2] eqn:H2.
  apply shr_fexp_spec in H1; [| lia].
  set (D := Zdigits2 (Zpos m)) in *.
  assert (HD : 0 < D) by (apply Zdigits2_pos; lia).
  set (m1 := round_nearest_even (shr_m mrs1) (loc_of_shr_record mrs1)) in *.
  assert (Hm1 : 0 <= shr_m mrs1 /\
                e1 = fexp prec emax (D + e) /\
                ((0 < shr_m mrs1 /\ Zdigits2 (shr_m mrs1) = D + e - e1)
                 \/ (shr_m mrs1 = 0 /\ D + e <= e1 /\ m1 <= 1))).
  { destruct H1 as [(Hn & -> & ->) | (Hn & Hm & ->)].
    - cbn [shr_record_of_loc shr_m]. split; [lia |]. split; [lia |].
      left. split; [lia |]. fold D. lia.
    - rewrite Hm.
      destruct (Zdigits2_div (Zpos m) (fexp prec emax (D + e) - e)
                  ltac:(lia) ltac:(lia))
        as [[Hq Hd] | [Hq Hd]].
      + split; [lia |]. split; [lia |]. left. split; [exact Hq |].
        fold D in Hd. lia.
      + split; [lia |]. split; [lia |]. right. split; [exact Hq |].
        fold D in Hd. split; [lia |].
        unfold m1. rewrite Hm, Hq.
        destruct (round_nearest_even_cases 0 (loc_of_shr_record mrs1)); lia. }
  destruct Hm1 as (Hm1nn & He1 & Hm1).
  assert (Hr : m1 = shr_m mrs1 \/ m1 = shr_m mrs1 + 1)
    by apply round_nearest_even_cases.
  assert (Hm1' : 0 <= m1) by lia.
  clearbody m1.
  apply shr_fexp_spec in H2; [| exact Hm1'].
  cbv zeta in H2. rewrite !fexp_eq in *.
  destruct (Z.eq_dec m1 0) as [Hz | Hnz].
  { (* the rounded mantissa is 0 *)
    assert (Hm2 : shr_m mrs2 = 0).
    { destruct H2 as [(_ & -> & _) | (_ & -> & _)].
      - rewrite Hz. reflexivity.
      - rewrite Hz. apply Z.div_0_l.
        apply Z.pow_nonzero; lia. }
    rewrite Hm2. reflexivity. }
  assert (Hm1pos : 0 < m1) by lia.
  assert (HD1 : Zdigits2 m1 = Zdigits2 (shr_m mrs1)
                \/ (Zdigits2 m1 = Zdigits2 (shr_m mrs1) + 1
                    /\ m1 = 2 ^ Zdigits2 (shr_m mrs1))).
  { destruct Hr as [-> | ->]; [left; reflexivity |].
    apply Zdigits2_succ. exact Hm1nn. }
  assert (Hfinal : 0 < shr_m mrs2 /\
                   Z.max (Zdigits2 (shr_m mrs2) + e2 - prec)
                     (3 - emax - prec) = e2).
  { destruct H2 as [(Hn & -> & ->) | (Hn & Hm2 & ->)].
    - rewrite shr_record_of_loc_m. split; [exact Hm1pos |].
      destruct Hm1 as [(Hp & Hd) | (Hp & Hd & Hle)].
      + destruct HD1 as [HD1 | [HD1 _]]; lia.
      + assert (m1 = 1) by lia. subst m1.
        cbn [Zdigits2 digits2_pos] in *. lia.
    - destruct Hm1 as [(Hp & Hd) | (Hp & Hd & Hle)].
      + destruct HD1 as [HD1 | [HD1 Hpow]]; [lia |].
        assert (Hn1 : Z.max (Zdigits2 m1 + e1 - prec) (3 - emax - prec) - e1
                      = 1) by lia.
        rewrite Hn1 in Hm2 |- *. rewrite Hm2, Hpow.
        assert (Hd1 : 1 <= Zdigits2 (shr_m mrs1)).
        { pose proof (Zdigits2_pos (shr_m mrs1) Hp). lia. }
        replace (2 ^ Zdigits2 (shr_m mrs1) / 2 ^ 1)
          with (2 ^ (Zdigits2 (shr_m mrs1) - 1)).
        2:{ replace (Zdigits2 (shr_m mrs1))
              with (Z.succ (Zdigits2 (shr_m mrs1) - 1)) at 2 by lia.
            rewrite Z.pow_succ_r by lia.
            rewrite Z.mul_comm, Z.div_mul by lia. reflexivity. }
        split; [apply Z.pow_pos_nonneg; lia |].
        rewrite Zdigits2_log2 by (apply Z.pow_pos_nonneg; lia).
        rewrite Z.log2_pow2 by lia. lia.
      + assert (m1 = 1) by lia. subst m1.
        cbn [Zdigits2 digits2_pos] in *. lia. }
  destruct Hfinal as (Hpos & Hcanon).
  destruct (shr_m mrs2) as [| p | p] eqn:Hp; try lia.
  destruct (e2 <=? emax - prec) eqn:Hle; [| reflexivity].
  split; [reflexivity |].
  unfold bounded, canonical_mantissa. rewrite fexp_eq.
  rewrite Hle, andb_true_r. apply Z.eqb_eq.
  cbn [Zdigits2] in Hcanon. lia.
Qed.

End Round.

Section RoundMore.

Variables prec emax : Z.
Hypothesis prec_pos : 0 < prec.

Lemma binary_round_valid (s : bool) (m : positive) (e : Z) :
  match binary_round prec emax s m e with
  | S754_nan => False
  | S754_finite s' m' e' => s' = s /\ bounded prec emax m' e' = true
  | S754_zero s' | S754_infinity s' => s' = s
  end.
Proof.
  unfold binary_round, shl_align.
  destruct (fexp prec emax (Zpos (digits2_pos m) + e) - e) as [| d | d] eqn:Hd.
  - apply binary_round_aux_valid; [exact prec_pos |]. cbn [Zdigits2]. lia.
  - apply binary_round_aux_valid; [exact prec_pos |]. cbn [Zdigits2]. lia.
  - apply binary_round_aux_valid; [exact prec_pos |].
    rewrite iter_xO.
    rewrite Zdigits2_shift by lia. cbn [Zdigits2].
    replace (Zpos (digits2_pos m) + Zpos d
             + fexp prec emax (Zpos (digits2_pos m) + e))
      with (Zpos (digits2_pos m) + e) by lia.
    lia.
Qed.

(** A canonical mantissa is left as it is. *)
Lemma binary_round_aux_canonical (s : bool) (m : positive) (e : Z) :
  canonical_mantissa prec emax m e = true ->
  binary_round_aux prec emax s (Zpos m) e loc_Exact
  = if e <=? emax - prec then S754_finite s m e else S754_infinity s.
Proof.
  unfold canonical_mantissa. intros Hc. apply Z.eqb_eq in Hc.
  unfold binary_round_aux, shr_fexp. cbn [Zdigits2].
  rewrite Hc, Z.sub_diag. cbn [shr shr_record_of_loc shr_m
    loc_of_shr_record round_nearest_even Zdigits2].
  rewrite Hc, Z.sub_diag. reflexivity.
Qed.

Lemma binary_round_canonical (s : bool) (m : positive) (e : Z) :
  bounded prec emax m e = true ->
  binary_round prec emax s m e = S754_finite s m e.
Proof.
  unfold bounded. intros Hb. apply andb_true_iff in Hb as [Hc Hle].
  unfold binary_round, shl_align.
  pose proof Hc as Hc'. unfold canonical_mantissa in Hc'.
  apply Z.eqb_eq in Hc'. rewrite Hc', Z.sub_diag.
  rewrite binary_round_aux_canonical by exact Hc.
  rewrite Hle. reflexivity.
Qed.

End RoundMore.

(** A binary32 number goes to binary64 and back unchanged. *)
Lemma float_double_float (s : bool) (m : positive) (e : Z) :
  bounded 24 128 m e = true ->
  sf_round 24 128 (binary_round 53 1024 s m e) = S754_finite s m e.
Proof.
  intros Hb. pose proof Hb as Hb'.
  unfold bounded, canonical_mantissa in Hb'.
  apply andb_true_iff in Hb' as [Hc Hle].
  apply Z.eqb_eq in Hc. apply Z.leb_le in Hle.
  rewrite fexp_eq in Hc.
  set (D := Zpos (digits2_pos m)) in *.
  assert (HD : 0 < D) by (unfold D; lia).
  (* to binary64: the mantissa is shifted left *)
  unfold binary_round at 1, shl_align. rewrite fexp_eq. fold D.
  destruct (Z.max (D + e - 53) (3 - 1024 - 53) - e) as [| d | d] eqn:Hd;
    try lia.
  assert (Hcanon64 : canonical_mantissa 53 1024 (Pos.iter xO m d)
                       (Z.max (D + e - 53) (3 - 1024 - 53)) = true).
  { unfold canonical_mantissa. apply Z.eqb_eq. rewrite fexp_eq.
    change (Zpos (digits2_pos (Pos.iter xO m d)))
      with (Zdigits2 (Zpos (Pos.iter xO m d))).
    rewrite iter_xO, Zdigits2_shift by lia. cbn [Zdigits2]. fold D. lia. }
  rewrite binary_round_aux_canonical by exact Hcanon64.
  replace (Z.max (D + e - 53) (3 - 1024 - 53) <=? 1024 - 53) with true
    by (symmetry; apply Z.leb_le; lia).
  (* back to binary32: the zeros are shifted out *)
  cbn [sf_round]. unfold binary_round, shl_align. rewrite fexp_eq.
  assert (HD' : Zpos (digits2_pos (Pos.iter xO m d)) = D + Zpos d).
  { change (Zpos (digits2_pos (Pos.iter xO m d)))
      with (Zdigits2 (Zpos (Pos.iter xO m d))).
    rewrite iter_xO, Zdigits2_shift by lia. reflexivity. }
  rewrite HD'.
  replace (Z.max (D + Z.pos d + Z.max (D + e - 53) (3 - 1024 - 53) - 24)
             (3 - 128 - 24) - Z.max (D + e - 53) (3 - 1024 - 53))
    with (Zpos d) by lia.
  unfold binary_round_aux, shr_fexp. rewrite fexp_eq. cbn [Zdigits2].
  rewrite HD'.
  replace (Z.max (D + Z.pos d + Z.max (D + e - 53) (3 - 1024 - 53) - 24)
             (3 - 128 - 24) - Z.max (D + e - 53) (3 - 1024 - 53))
    with (Zpos d) by lia.
  cbn [shr shr_record_of_loc]. rewrite shr_iter_exact.
  cbn [shr_m loc_of_shr_record round_nearest_even Zdigits2].
  rewrite fexp_eq. fold D.
  replace (Z.max (D + e - 53) (3 - 1024 - 53) + Z.pos d) with e by lia.
  replace (Z.max (D + e - 24) (3 - 128 - 24) - e) with 0 by lia.
  cbn [shr shr_m].
  replace (e <=? 128 - 24) with true by (symmetry; apply Z.leb_le; lia).
  reflexivity.
Qed.

Lemma sf_round_idempotent (x : spec_float) :
  sf_round 24 128 (sf_round 53 1024 (sf_round 24 128 x)) = sf_round 24 128 x.
Proof.
  destruct x as [s | s | | s m e]; try reflexivity.
  cbn [sf_round].
  pose proof (binary_round_valid 24 128 ltac:(lia) s m e) as Hv.
  destruct (binary_round 24 128 s m e) as [s' | s' | | s' m' e'];
    try reflexivity.
  destruct Hv as [-> Hb]. cbn [sf_round].
  apply float_double_float. exact Hb.
Qed.

Lemma sf_round_not_nan (prec emax : Z) (x : spec_float) :
  0 < prec -> x <> S754_nan -> sf_round prec emax x <> S754_nan.
Proof.
  intros Hp Hx. destruct x as [s | s | | s m e]; try discriminate.
  - contradiction.
  - cbn [sf_round].
    pose proof (binary_round_valid prec emax Hp s m e) as Hv.
    destruct (binary_round prec emax s m e);
      try discriminate; contradiction.
Qed.

(** ** Facts about comparisons *)

Lemma SFltb_leb (x y : spec_float) : SFltb x y = true -> SFleb x y = true.
Proof.
  unfold SFltb, SFleb. destruct (SFcompare x y) as [[] |]; congruence.
Qed.

Lemma SFltb_not_nan (x y : spec_float) :
  SFltb x y = true -> x <> S754_nan /\ y <> S754_nan.
Proof.
  unfold SFltb. destruct x, y; cbn; try discriminate; split; discriminate.
Qed.

Lemma SFcompare_refl (x : spec_float) :
  x <> S754_nan -> SFcompare x x = Some Eq.
Proof.
  destruct x as [s | s | | s m e]; cbn; intros Hx; try reflexivity.
  - destruct s; reflexivity.
  - contradiction.
  - rewrite Z.compare_refl, Pos.compare_cont_refl. destruct s; reflexivity.
Qed.

Lemma SFleb_refl (x : spec_float) : x <> S754_nan -> SFleb x x = true.
Proof. intros Hx. unfold SFleb. rewrite SFcompare_refl by exact Hx. reflexivity. Qed.

(** ** Stability class and the exponent tables *)

Section Stability.

Variable M : Libm.

(** The bins that [stab_srdt] selects never address a zero entry of
    [lsrdt]. *)
Lemma stab_srdt_class (daytime : int) (speed solar dT : float) :
  exists c : int,
    stab_srdt daytime speed solar dT = Some c /\ 1 <= c <= 6.
Proof.
  unfold stab_srdt, stab_srdt_bins.
  destruct (negb (daytime =? 0)).
  - destruct (solar >=? 925.0)%D; [| destruct (solar >=? 675.0)%D;
      [| destruct (solar >=? 175.0)%D]];
    (destruct (speed >=? 6.0)%D; [| destruct (speed >=? 5.0)%D;
      [| destruct (speed >=? 3.0)%D; [| destruct (speed >=? 2.0)%D]]]);
    (eexists; split; [reflexivity | lia]).
  - destruct (dT >=? 0.0)%D;
    (destruct (speed >=? 2.5)%D; [| destruct (speed >=? 2.0)%D]);
    (eexists; split; [reflexivity | lia]).
Qed.

(** With a class between 1 and 6, [est_wind_speed] reads inside its two
    tables. *)
Lemma est_wind_speed_defined (speed zspeed : float) (c urban : int)
    (min_speed : float) :
  1 <= c <= 6 ->
  exists e : float,
    array_get (if negb (urban =? 0) then urban_exp else rural_exp)
      (isub c 1) = Some e /\
    est_wind_speed M speed zspeed c urban min_speed =
      Some (maxf (to_float (speed * pow M (REF_HEIGHT / zspeed) e)%D)
              min_speed).
Proof.
  intros Hc. unfold est_wind_speed.
  assert (Hcases : c = 1 \/ c = 2 \/ c = 3 \/ c = 4 \/ c = 5 \/ c = 6) by lia.
  destruct (negb (urban =? 0));
    (destruct Hcases as [-> | [-> | [-> | [-> | [-> | ->]]]]];
     eexists; split; reflexivity).
Qed.

(** C4: for every daytime flag, wind speed, irradiance and temperature
    gradient, [stab_srdt] returns a class in 1..6 (the zero entries of
    [lsrdt] are not reachable through the selection of the bins), so the
    index [stability_class - 1] that [est_wind_speed] uses lies inside the
    six-entry exponent tables, urban and rural. *)
Theorem stab_srdt_class_in_bounds (daytime : int) (speed solar dT : float) :
  exists c : int,
    stab_srdt daytime speed solar dT = Some c /\
    1 <= c <= 6 /\
    0 <= isub c 1 < Z.of_nat (length urban_exp) /\
    0 <= isub c 1 < Z.of_nat (length rural_exp) /\
    (forall (wind zspeed min_speed : float) (urban : int),
        est_wind_speed M wind zspeed c urban min_speed <> None).
Proof.
  destruct (stab_srdt_class daytime speed solar dT) as (c & Hc & Hr).
  exists c. split; [exact Hc |]. split; [exact Hr |].
  assert (Hi : isub c 1 = c - 1).
  { unfold isub, wrap32. rewrite Z.mod_small; lia. }
  rewrite Hi. cbn [length urban_exp rural_exp map].
  repeat split; try lia.
  intros wind zspeed min_speed urban.
  destruct (est_wind_speed_defined wind zspeed c urban min_speed Hr)
    as (e & _ & He).
  rewrite He. discriminate.
Qed.

End Stability.

(** ** Solar position: validation of the arguments *)

Section SolarPosition.

Variable M : Libm.

Lemma daynum_defined (year month day : int) :
  1 <= month <= 12 -> exists d : int, daynum year month day = Some d.
Proof.
  intros Hm. unfold daynum.
  destruct (year <? 1); [eexists; reflexivity |].
  assert (Hcases : month = 1 \/ month = 2 \/ month = 3 \/ month = 4 \/
                   month = 5 \/ month = 6 \/ month = 7 \/ month = 8 \/
                   month = 9 \/ month = 10 \/ month = 11 \/ month = 12)
    by lia.
  repeat (destruct Hcases as [-> | Hcases]; [eexists; reflexivity |]).
  subst month. eexists; reflexivity.
Qed.

(** The first half of [solarposition] returns -1 exactly on the dates out
    of range, and never reads outside [begmonth]. *)
Lemma solarposition_date_spec (year month : int) (day days_1900 : double) :
  if date_out_of_range year month day days_1900
  then solarposition_date year month day days_1900 = Return (-1)
  else exists t, solarposition_date year month day days_1900 = Next t.
Proof.
  unfold date_out_of_range, solarposition_date, year_out_of_range,
    day_out_of_range, days_1900_out_of_range.
  destruct (negb (year =? 0)).
  - destruct ((year <? 1950) || (year >? 2049)); cbn [orb]; [reflexivity |].
    destruct (negb (month =? 0)).
    + destruct (month <? 1) eqn:H1; cbn [orb]; [reflexivity |].
      destruct (month >? 12) eqn:H12; cbn [orb]; [reflexivity |].
      destruct ((day <? 0.0)%D || (day >? 33.0)%D); [reflexivity |].
      destruct (daynum_defined year month (int_of_double day)) as (d & ->);
        [lia |].
      cbn [flow_of_option flow_bind]. eexists; reflexivity.
    + destruct ((day <? 0.0)%D || (day >? 368.0)%D); [reflexivity |].
      cbn [flow_bind]. eexists; reflexivity.
  - destruct ((days_1900 <? 18262.0)%D || (days_1900 >? 54788.0)%D);
      [reflexivity |].
    destruct (modf days_1900). eexists; reflexivity.
Qed.

(** [solarposition] is defined on every argument: it returns -1 and writes
    nothing on a domain error, and returns 0 and writes its outputs
    otherwise. *)
Lemma solarposition_spec (year month : int)
    (day days_1900 latitude longitude : double) :
  exists r : solpos_result,
    solarposition M year month day days_1900 latitude longitude = Some r /\
    if domain_error year month day days_1900 latitude longitude
    then r = {| sp_return := -1; sp_written := None |}
    else sp_return r = 0 /\ exists p, sp_written r = Some p.
Proof.
  unfold solarposition, domain_error.
  fold (latlon_out_of_range latitude longitude).
  destruct (latlon_out_of_range latitude longitude); cbn [orb].
  - eexists; split; reflexivity.
  - pose proof (solarposition_date_spec year month day days_1900) as Hd.
    destruct (date_out_of_range year month day days_1900).
    + rewrite Hd. eexists; split; reflexivity.
    + destruct Hd as ([[dj cj] ut] & ->).
      eexists; split; [reflexivity |]. split; [reflexivity |].
      eexists; reflexivity.
Qed.

(** C8: [solarposition] returns -1 whenever the latitude is outside
    [-90, 90], the longitude is outside [-180, 180], the year (when not 0) is
    outside [1950, 2049], the day or day number is outside the range allowed
    for the way the date is given, or [days_1900] (when the year is 0) is
    outside [18262, 54788]; it returns 0 in every other case.  Latitude 91
    and longitude 181 are domain errors, and the latitude and the
    longitude are checked before anything is done with the date: out of
    range, they give -1 whatever the date arguments are. *)
Theorem solarposition_domain_error (year month : int)
    (day days_1900 latitude longitude : double) :
  (exists r : solpos_result,
      solarposition M year month day days_1900 latitude longitude = Some r /\
      sp_return r =
        (if domain_error year month day days_1900 latitude longitude
         then -1 else 0) /\
      (domain_error year month day days_1900 latitude longitude = true ->
       sp_written r = None)) /\
  (forall (y m : int) (d d1900 longitude' : double),
      solarposition M y m d d1900 91.0%D longitude'
      = Some {| sp_return := -1; sp_written := None |}) /\
  (forall (y m : int) (d d1900 latitude' : double),
      solarposition M y m d d1900 latitude' 181.0%D
      = Some {| sp_return := -1; sp_written := None |}) /\
  (forall (y m : int) (d d1900 : double),
      latlon_out_of_range latitude longitude = true ->
      solarposition M y m d d1900 latitude longitude
      = Some {| sp_return := -1; sp_written := None |}).
Proof.
  split; [| split; [| split]].
  - destruct (solarposition_spec year month day days_1900 latitude longitude)
      as (r & Hr & Hspec).
    exists r. split; [exact Hr |].
    destruct (domain_error year month day days_1900 latitude longitude).
    + subst r. split; [reflexivity | reflexivity].
    + destruct Hspec as (H0 & _). split; [exact H0 | discriminate].
  - intros y m d d1900 longitude'. unfold solarposition.
    replace (91.0 >? 90.0)%D with true by reflexivity.
    rewrite orb_true_r. reflexivity.
  - intros y m d d1900 latitude'. unfold solarposition.
    replace (181.0 >? 180.0)%D with true by reflexivity.
    rewrite !orb_true_r. reflexivity.
  - intros y m d d1900 Hll. unfold solarposition.
    unfold latlon_out_of_range in Hll. rewrite Hll. reflexivity.
Qed.

End SolarPosition.

(** ** Solar parameters *)

Section SolarParameters.

Variable M : Libm.
Variable spa_calculate : spa_data -> spa_output.
Variable U : indeterminate.

Lemma calc_solar_geometry_defined (year month : int) (day : double)
    (lat lon : float) (use_spa : int) (cza : float) :
  exists g : float * double,
    calc_solar_geometry M spa_calculate U year month day lat lon use_spa cza
    = Some g.
Proof.
  unfold calc_solar_geometry.
  destruct (use_spa =? 0).
  - destruct (solarposition_spec M year month day 0.0%D lat lon)
      as (r & -> & _).
    cbn [bind]. eexists; reflexivity.
  - match goal with |- context [if ?c then _ else _] => destruct c end;
      eexists; reflexivity.
Qed.

Lemma calc_solar_parameters_defined (year month : int) (day : double)
    (lat lon : float) (use_spa : int) (solar cza : float) :
  exists (cza' : float) (soldist : double),
    calc_solar_geometry M spa_calculate U year month day lat lon use_spa cza
    = Some (cza', soldist) /\
    calc_solar_parameters M spa_calculate U year month day lat lon use_spa
      solar cza
    = Some (calc_solar_partition M solar cza' soldist).
Proof.
  destruct (calc_solar_geometry_defined year month day lat lon use_spa cza)
    as ([cza' soldist] & Hg).
  exists cza', soldist. split; [exact Hg |].
  unfold calc_solar_parameters. rewrite Hg. reflexivity.
Qed.

Lemma calc_solar_partition_return (solar cza : float) (soldist : double) :
  csp_return (calc_solar_partition M solar cza soldist) = 0.
Proof.
  unfold calc_solar_partition.
  match goal with |- context [if ?c then _ else _] => destruct c end;
    reflexivity.
Qed.

Lemma calc_solar_partition_cza (solar cza : float) (soldist : double) :
  csp_cza (calc_solar_partition M solar cza soldist) = cza.
Proof.
  unfold calc_solar_partition.
  match goal with |- context [if ?c then _ else _] => destruct c end;
    reflexivity.
Qed.

(** The direct-beam fraction in terms of [toasolar] and [normsolar]. *)
Lemma calc_solar_partition_fdir (solar cza : float) (soldist : double) :
  let toasolar := toasolar_of cza soldist in
  let normsolar := normsolar_of solar toasolar in
  csp_fdir (calc_solar_partition M solar cza soldist) =
    if (toasolar >? 0.0)%D && (normsolar >? 0.0)%D
    then clamp_fdir
           (to_float (exp M (3.0 - 1.34 * normsolar - 1.65 / normsolar)%D))
    else to_float 0.0%D.
Proof.
  cbv zeta. unfold calc_solar_partition.
  fold (toasolar_of cza soldist).
  destruct (toasolar_of cza soldist >? 0.0)%D; cbn [andb]; [| reflexivity].
  fold (normsolar_of solar (toasolar_of cza soldist)).
  destruct (normsolar_of solar (toasolar_of cza soldist) >? 0.0)%D;
    reflexivity.
Qed.

Lemma calc_solar_partition_night (solar cza : float) (soldist : double) :
  (cza <? CZA_MIN)%D = true ->
  calc_solar_partition M solar cza soldist
  = {| csp_return := 0; csp_solar := to_float 0.0%D; csp_cza := cza;
       csp_fdir := to_float 0.0%D |}.
Proof.
  intros Hc. unfold calc_solar_partition. rewrite Hc. reflexivity.
Qed.

(** C7: if the cosine of the solar zenith angle that
    [calc_solar_parameters] arrives at is below 0.00873, the adjusted solar
    irradiance and the direct-beam fraction are both set to 0. *)
Theorem calc_solar_parameters_below_horizon (year month : int) (day : double)
    (lat lon : float) (use_spa : int) (solar cza : float) :
  exists sp : solar_parameters,
    calc_solar_parameters M spa_calculate U year month day lat lon use_spa
      solar cza = Some sp /\
    ((csp_cza sp <? CZA_MIN)%D = true ->
     csp_solar sp = to_float 0.0%D /\ csp_fdir sp = to_float 0.0%D).
Proof.
  destruct (calc_solar_parameters_defined year month day lat lon use_spa
              solar cza) as (cza' & soldist & _ & Hsp).
  eexists; split; [exact Hsp |].
  rewrite calc_solar_partition_cza. intros Hc.
  rewrite (calc_solar_partition_night solar cza' soldist Hc).
  split; reflexivity.
Qed.

(** C9: [calc_solar_parameters] returns 0 on every input.  When it uses
    the built-in algorithm it drops the value of [solarposition]: on a
    domain error, where [solarposition] returns -1 and writes nothing, the
    outputs are still computed, from the local variables [elev] and
    [soldist] that nothing wrote. *)
Theorem calc_solar_parameters_returns_0 (year month : int) (day : double)
    (lat lon : float) (use_spa : int) (solar cza : float) :
  exists sp : solar_parameters,
    calc_solar_parameters M spa_calculate U year month day lat lon use_spa
      solar cza = Some sp /\
    csp_return sp = 0 /\
    (use_spa = 0 ->
     domain_error year month day 0.0%D lat lon = true ->
     solarposition M year month day 0.0%D lat lon
     = Some {| sp_return := -1; sp_written := None |} /\
     sp = calc_solar_partition M solar
            (to_float (cos M ((90.0 - elev0 U) * DEG_RAD)%D)) (soldist0 U)).
Proof.
  destruct (calc_solar_parameters_defined year month day lat lon use_spa
              solar cza) as (cza' & soldist & Hg & Hsp).
  eexists; split; [exact Hsp |].
  split; [apply calc_solar_partition_return |].
  intros -> Herr.
  destruct (solarposition_spec M year month day 0.0%D lat lon)
    as (r & Hr & Hspec).
  rewrite Herr in Hspec. subst r.
  split; [exact Hr |].
  unfold calc_solar_geometry in Hg. cbn [Z.eqb] in Hg.
  rewrite Hr in Hg. cbn [bind sp_written] in Hg.
  injection Hg as <- <-. reflexivity.
Qed.

End SolarParameters.

(** ** Loops that count their passes *)

Section DoWhile.

Context {S : Type}.
Variable body : S -> S.
Variable cond : S -> bool.

Lemma do_while_more_fuel (fuel extra : nat) (s r : S) :
  do_while fuel body cond s = Some r ->
  do_while (fuel + extra) body cond s = Some r.
Proof.
  revert s. induction fuel as [| fuel IH]; intros s; cbn [do_while Nat.add].
  - discriminate.
  - destruct (cond (body s)); [apply IH | trivial].
Qed.

Lemma do_while_ext (body' : S -> S) :
  (forall s, body s = body' s) ->
  forall (fuel : nat) (s : S),
    do_while fuel body cond s = do_while fuel body' cond s.
Proof.
  intros Hb fuel. induction fuel as [| fuel IH]; intros s; cbn [do_while].
  - reflexivity.
  - rewrite <- Hb. destruct (cond (body s)); [apply IH | reflexivity].
Qed.

End DoWhile.

(** The loop of the two solvers: a counter [count] that every pass
    increments, a flag [conv] that a pass sets when its test [close]
    succeeds, and the condition [!conv && count < N]. *)
Section CountedLoop.

Context {S : Type}.
Variable body : S -> S.
Variable count : S -> int.
Variable conv : S -> bool.
Variable close : S -> bool.
Variable N : Z.

Hypothesis N_range : 0 < N < 2 ^ 31.
Hypothesis count_body : forall s, count (body s) = iadd (count s) 1.
Hypothesis conv_body : forall s, conv (body s) = close s || conv s.

Lemma counted_pass (s : S) :
  0 <= count s < N -> count (body s) = count s + 1.
Proof.
  intros Hc. rewrite count_body. unfold iadd, wrap32.
  rewrite Z.mod_small; lia.
Qed.

Lemma counted_run (fuel : nat) (s : S) :
  0 <= count s < N ->
  N - count s <= Z.of_nat fuel ->
  exists n : nat,
    (1 <= n)%nat /\
    do_while fuel body (loop_cond count conv N) s = Some (Nat.iter n body s) /\
    count (Nat.iter n body s) = count s + Z.of_nat n /\
    count s + Z.of_nat n <= N /\
    loop_cond count conv N (Nat.iter n body s) = false.
Proof.
  revert s. induction fuel as [| fuel IH]; intros s Hc Hf; [lia |].
  cbn [do_while].
  pose proof (counted_pass s Hc) as Hp.
  destruct (loop_cond count conv N (body s)) eqn:Hcond.
  - assert (Hlt : count (body s) < N).
    { unfold loop_cond in Hcond. apply andb_true_iff in Hcond.
      destruct Hcond as [_ Hlt]. apply Z.ltb_lt in Hlt. exact Hlt. }
    destruct (IH (body s)) as (n & Hn & Hrun & Hcnt & Hle & Hstop);
      [lia | lia |].
    exists (Datatypes.S n). rewrite Nat.iter_succ_r.
    repeat split; [lia | exact Hrun | lia | lia | exact Hstop].
  - exists 1%nat. cbn [Nat.iter nat_rect].
    repeat split; [lia | lia | lia | exact Hcond].
Qed.

Lemma never_close_never_conv (s : S) (n : nat) :
  conv s = false ->
  (forall k : nat, (k < n)%nat -> close (Nat.iter k body s) = false) ->
  conv (Nat.iter n body s) = false.
Proof.
  intros H0 Hclose. induction n as [| n IH]; [exact H0 |].
  rewrite Nat.iter_succ, conv_body, IH, Hclose; [reflexivity | lia |].
  intros k Hk. apply Hclose. lia.
Qed.

(** From a state with counter 0 and flag unset, the loop stops after at
    most [N] passes, whatever fuel it is given beyond [N]; when it stops
    with the flag unset it made exactly [N] passes; and it stops with the
    flag unset when no pass found its test satisfied. *)
Lemma counted_loop (s0 : S) :
  count s0 = 0 ->
  conv s0 = false ->
  exists n : nat,
    (1 <= n)%nat /\ Z.of_nat n <= N /\
    (forall extra : nat,
        do_while (Z.to_nat N + extra) body (loop_cond count conv N) s0
        = Some (Nat.iter n body s0)) /\
    count (Nat.iter n body s0) = Z.of_nat n /\
    (conv (Nat.iter n body s0) = false -> Z.of_nat n = N) /\
    ((forall k : nat, Z.of_nat k < N -> close (Nat.iter k body s0) = false) ->
     Z.of_nat n = N /\ conv (Nat.iter n body s0) = false).
Proof.
  intros Hc0 Hv0.
  destruct (counted_run (Z.to_nat N) s0) as (n & Hn & Hrun & Hcnt & Hle & Hstop);
    [lia | lia |].
  rewrite Hc0 in Hcnt, Hle. cbn [Z.add] in Hcnt, Hle.
  assert (Hfull : conv (Nat.iter n body s0) = false -> Z.of_nat n = N).
  { intros Hv. unfold loop_cond in Hstop. rewrite Hv in Hstop.
    cbn [negb andb] in Hstop. apply Z.ltb_ge in Hstop. lia. }
  exists n. repeat split; try assumption.
  - intros extra. apply do_while_more_fuel. exact Hrun.
  - apply Hfull. apply never_close_never_conv; [exact Hv0 |].
    intros k Hk. apply H. lia.
  - apply never_close_never_conv; [exact Hv0 |].
    intros k Hk. apply H. lia.
Qed.

End CountedLoop.

(** ** The two solvers *)

Section Solvers.

Variable M : Libm.

Lemma MAX_ITER_range : 0 < MAX_ITER < 2 ^ 31.
Proof. unfold MAX_ITER. lia. Qed.

(** The body of either loop writes [Twb_new] (resp. [Tglobe_new]) before it
    reads it: the value on entry to the loop is immaterial. *)
Lemma Twb_body_new (Tair rh Pair speed solar fdir : float) (rad : int)
    (Tsfc sza eair : float) (s : wb_state) (junk : float) :
  Twb_body M Tair rh Pair speed solar fdir rad Tsfc sza eair
    {| w_iter := w_iter s; w_converged := w_converged s;
       Twb_prev := Twb_prev s; Twb_new := junk; heat := heat s |}
  = Twb_body M Tair rh Pair speed solar fdir rad Tsfc sza eair s.
Proof. reflexivity. Qed.

Lemma Tglobe_body_new (Tair rh Pair speed solar fdir cza d_globe Tsfc : float)
    (s : globe_state) (junk : float) :
  Tglobe_body M Tair rh Pair speed solar fdir cza d_globe Tsfc
    {| g_iter := g_iter s; g_converged := g_converged s;
       Tglobe_prev := Tglobe_prev s; Tglobe_new := junk |}
  = Tglobe_body M Tair rh Pair speed solar fdir cza d_globe Tsfc s.
Proof. reflexivity. Qed.

(** The convergence tests, written on the iterated loop bodies. *)
Lemma Twb_close_eq (Tair rh Pair speed solar fdir cza : float) (rad : int)
    (k : nat) :
  (fun s =>
     (fabs (Twb_new
              (Twb_body M Tair rh Pair speed solar fdir rad Tair
                 (to_float (acos M cza)) (rh *f esat M Tair 0%Z) s)
            -f Twb_prev s) <? CONVERGENCE)%D)
    (Nat.iter k
       (Twb_body M Tair rh Pair speed solar fdir rad Tair
          (to_float (acos M cza)) (rh *f esat M Tair 0%Z))
       (Twb_init (dew_point M (rh *f esat M Tair 0%Z) 0%Z)))
  = Twb_close M Tair rh Pair speed solar fdir cza rad k.
Proof.
  exact (eq_refl _).
Qed.

Lemma Tglobe_close_eq (Tair rh Pair speed solar fdir cza d_globe : float)
    (k : nat) :
  (fun s =>
     (fabs (Tglobe_new
              (Tglobe_body M Tair rh Pair speed solar fdir cza
                 (Tglobe_d_globe d_globe) Tair s)
            -f Tglobe_prev s) <? CONVERGENCE)%D)
    (Nat.iter k
       (Tglobe_body M Tair rh Pair speed solar fdir cza
          (Tglobe_d_globe d_globe) Tair)
       (Tglobe_init Tair))
  = Tglobe_close M Tair rh Pair speed solar fdir cza d_globe k.
Proof.
  exact (eq_refl _).
Qed.

(** [Twb]: the loop is left after [n <= 50] passes, with [iter = n]. *)
Lemma Twb_loop_spec (Tair rh Pair speed solar fdir cza : float) (rad : int) :
  exists n : nat,
    (1 <= n <= 50)%nat /\
    (forall extra : nat,
        Twb_loop M (loop_fuel + extra) Tair rh Pair speed solar fdir cza rad
        = Some (Twb_pass M Tair rh Pair speed solar fdir cza rad n)) /\
    w_iter (Twb_pass M Tair rh Pair speed solar fdir cza rad n)
    = Z.of_nat n /\
    ((forall k : nat, (k < 50)%nat ->
         Twb_close M Tair rh Pair speed solar fdir cza rad k = false) ->
     n = 50%nat /\
     w_converged (Twb_pass M Tair rh Pair speed solar fdir cza rad n)
     = false).
Proof.
  pose proof
    (counted_loop
       (Twb_body M Tair rh Pair speed solar fdir rad Tair
          (to_float (acos M cza)) (rh *f esat M Tair 0%Z))
       w_iter w_converged
       (fun s =>
          (fabs (Twb_new
                   (Twb_body M Tair rh Pair speed solar fdir rad Tair
                      (to_float (acos M cza)) (rh *f esat M Tair 0%Z) s)
                 -f Twb_prev s) <? CONVERGENCE)%D)
       MAX_ITER MAX_ITER_range (fun s => eq_refl)) as Hloop.
  destruct (Hloop
              (fun s =>
                 match
                   (fabs (Twb_new
                            (Twb_body M Tair rh Pair speed solar fdir rad Tair
                               (to_float (acos M cza)) (rh *f esat M Tair 0%Z)
                               s)
                          -f Twb_prev s) <? CONVERGENCE)%D as b
                   return (if b then true else w_converged s)
                          = b || w_converged s
                 with true => eq_refl | false => eq_refl end)
              (Twb_init (dew_point M (rh *f esat M Tair 0%Z) 0%Z))
              eq_refl eq_refl)
    as (n & Hn1 & Hn50 & Hrun & Hcnt & _ & Hnever).
  exists n. unfold MAX_ITER in Hn50.
  split; [lia |]. split; [exact Hrun |]. split; [exact Hcnt |].
  intros Hclose. destruct Hnever as [Hn Hconv].
  - intros k Hk. unfold MAX_ITER in Hk.
    assert (Hk' : (k < 50)%nat) by lia.
    rewrite Twb_close_eq. exact (Hclose k Hk').
  - split; [unfold MAX_ITER in Hn; lia | exact Hconv].
Qed.

(** [Tglobe]: the loop is left after [n <= 50] passes, with [iter = n]. *)
Lemma Tglobe_loop_spec (Tair rh Pair speed solar fdir cza d_globe : float) :
  exists n : nat,
    (1 <= n <= 50)%nat /\
    (forall extra : nat,
        Tglobe_loop M (loop_fuel + extra) Tair rh Pair speed solar fdir cza
          d_globe
        = Some (Tglobe_pass M Tair rh Pair speed solar fdir cza d_globe n)) /\
    g_iter (Tglobe_pass M Tair rh Pair speed solar fdir cza d_globe n)
    = Z.of_nat n /\
    ((forall k : nat, (k < 50)%nat ->
         Tglobe_close M Tair rh Pair speed solar fdir cza d_globe k = false) ->
     n = 50%nat /\
     g_converged (Tglobe_pass M Tair rh Pair speed solar fdir cza d_globe n)
     = false).
Proof.
  pose proof
    (counted_loop
       (Tglobe_body M Tair rh Pair speed solar fdir cza
          (Tglobe_d_globe d_globe) Tair)
       g_iter g_converged
       (fun s =>
          (fabs (Tglobe_new
                   (Tglobe_body M Tair rh Pair speed solar fdir cza
                      (Tglobe_d_globe d_globe) Tair s)
                 -f Tglobe_prev s) <? CONVERGENCE)%D)
       MAX_ITER MAX_ITER_range (fun s => eq_refl)) as Hloop.
  destruct (Hloop
              (fun s =>
                 match
                   (fabs (Tglobe_new
                            (Tglobe_body M Tair rh Pair speed solar fdir cza
                               (Tglobe_d_globe d_globe) Tair s)
                          -f Tglobe_prev s) <? CONVERGENCE)%D as b
                   return (if b then true else g_converged s)
                          = b || g_converged s
                 with true => eq_refl | false => eq_refl end)
              (Tglobe_init Tair) eq_refl eq_refl)
    as (n & Hn1 & Hn50 & Hrun & Hcnt & _ & Hnever).
  exists n. unfold MAX_ITER in Hn50.
  split; [lia |]. split; [exact Hrun |]. split; [exact Hcnt |].
  intros Hclose. destruct Hnever as [Hn Hconv].
  - intros k Hk. unfold MAX_ITER in Hk.
    assert (Hk' : (k < 50)%nat) by lia.
    rewrite Tglobe_close_eq. exact (Hclose k Hk').
  - split; [unfold MAX_ITER in Hn; lia | exact Hconv].
Qed.

(** Both solvers are defined on every argument. *)
Lemma Twb_defined (Tair rh Pair speed solar fdir cza : float) (rad : int) :
  exists n : nat,
    Twb M Tair rh Pair speed solar fdir cza rad
    = Some (Twb_return (Twb_pass M Tair rh Pair speed solar fdir cza rad n)).
Proof.
  destruct (Twb_loop_spec Tair rh Pair speed solar fdir cza rad)
    as (n & _ & Hrun & _).
  exists n. unfold Twb, Twb_fuel.
  specialize (Hrun 0%nat). rewrite Nat.add_0_r in Hrun. rewrite Hrun.
  reflexivity.
Qed.

Lemma Tglobe_defined (Tair rh Pair speed solar fdir cza d_globe : float) :
  exists n : nat,
    Tglobe M Tair rh Pair speed solar fdir cza d_globe
    = Some (Tglobe_return
              (Tglobe_pass M Tair rh Pair speed solar fdir cza d_globe n)).
Proof.
  destruct (Tglobe_loop_spec Tair rh Pair speed solar fdir cza d_globe)
    as (n & _ & Hrun & _).
  exists n. unfold Tglobe, Tglobe_fuel.
  specialize (Hrun 0%nat). rewrite Nat.add_0_r in Hrun. rewrite Hrun.
  reflexivity.
Qed.

(** C2: for every input the loops of [Twb] and [Tglobe] make at most 50
    passes and stop (with fuel for 50 passes or more the model returns a
    result, the same whatever the fuel, and the counter [iter] of the final
    state is the number of passes made, between 1 and 50); a solve in which
    none of the 50 passes finds [|T_new - T_prev| < 0.02] reaches the cap and
    returns -9999. *)
Theorem solver_iteration_cap
    (Tair rh Pair speed solar fdir cza d_globe : float) (rad : int) :
  (exists n : nat,
      (1 <= n <= 50)%nat /\
      (forall extra : nat,
          Twb_fuel M (loop_fuel + extra) Tair rh Pair speed solar fdir cza rad
          = Some (Twb_return
                    (Twb_pass M Tair rh Pair speed solar fdir cza rad n))) /\
      w_iter (Twb_pass M Tair rh Pair speed solar fdir cza rad n)
      = Z.of_nat n /\
      ((forall k : nat, (k < 50)%nat ->
           Twb_close M Tair rh Pair speed solar fdir cza rad k = false) ->
       n = 50%nat /\
       Twb M Tair rh Pair speed solar fdir cza rad = Some SENTINEL)) /\
  (exists n : nat,
      (1 <= n <= 50)%nat /\
      (forall extra : nat,
          Tglobe_fuel M (loop_fuel + extra) Tair rh Pair speed solar fdir cza
            d_globe
          = Some (Tglobe_return
                    (Tglobe_pass M Tair rh Pair speed solar fdir cza d_globe
                       n))) /\
      g_iter (Tglobe_pass M Tair rh Pair speed solar fdir cza d_globe n)
      = Z.of_nat n /\
      ((forall k : nat, (k < 50)%nat ->
           Tglobe_close M Tair rh Pair speed solar fdir cza d_globe k
           = false) ->
       n = 50%nat /\
       Tglobe M Tair rh Pair speed solar fdir cza d_globe = Some SENTINEL)).
Proof.
  split.
  - destruct (Twb_loop_spec Tair rh Pair speed solar fdir cza rad)
      as (n & Hn & Hrun & Hcnt & Hnever).
    exists n. split; [exact Hn |]. split; [| split; [exact Hcnt |]].
    + intros extra. unfold Twb_fuel. rewrite Hrun. reflexivity.
    + intros Hclose. destruct (Hnever Hclose) as [-> Hconv].
      split; [reflexivity |].
      unfold Twb, Twb_fuel. specialize (Hrun 0%nat).
      rewrite Nat.add_0_r in Hrun. rewrite Hrun. cbn [option_map].
      unfold Twb_return. rewrite Hconv. reflexivity.
  - destruct (Tglobe_loop_spec Tair rh Pair speed solar fdir cza d_globe)
      as (n & Hn & Hrun & Hcnt & Hnever).
    exists n. split; [exact Hn |]. split; [| split; [exact Hcnt |]].
    + intros extra. unfold Tglobe_fuel. rewrite Hrun. reflexivity.
    + intros Hclose. destruct (Hnever Hclose) as [-> Hconv].
      split; [reflexivity |].
      unfold Tglobe, Tglobe_fuel. specialize (Hrun 0%nat).
      rewrite Nat.add_0_r in Hrun. rewrite Hrun. cbn [option_map].
      unfold Tglobe_return. rewrite Hconv. reflexivity.
Qed.

(** Without radiative heating ([rad] other than 1) a pass of [Twb] reads
    none of [solar], [fdir] and [sza], and leaves [heat] as it was. *)
Lemma Twb_body_no_rad (Tair rh Pair speed : float) (rad : int)
    (Tsfc eair : float) (solar fdir sza solar' fdir' sza' : float)
    (s : wb_state) :
  rad <> 1 ->
  Twb_body M Tair rh Pair speed solar fdir rad Tsfc sza eair s
  = Twb_body M Tair rh Pair speed solar' fdir' rad Tsfc sza' eair s /\
  heat (Twb_body M Tair rh Pair speed solar fdir rad Tsfc sza eair s)
  = heat s.
Proof.
  intros Hrad. apply Z.eqb_neq in Hrad.
  unfold Twb_body. rewrite Hrad. split; reflexivity.
Qed.

(** C10: the psychrometric wet bulb temperature does not depend on the
    radiative inputs: two calls of [Twb] with [rad = 0] that differ only
    in [solar], [fdir] and [cza] return the same result, and the radiative
    term [heat] stays at 0 through all the passes. *)
Theorem Twb_psychrometric_ignores_radiation
    (Tair rh Pair speed solar fdir cza solar' fdir' cza' : float) :
  Twb M Tair rh Pair speed solar fdir cza 0
  = Twb M Tair rh Pair speed solar' fdir' cza' 0 /\
  (exists r : float,
      Twb M Tair rh Pair speed solar fdir cza 0 = Some r) /\
  (forall k : nat,
      heat (Twb_pass M Tair rh Pair speed solar fdir cza 0 k)
      = to_float 0.0%D).
Proof.
  split; [| split].
  - unfold Twb, Twb_fuel, Twb_loop. apply f_equal.
    apply do_while_ext. intros s.
    apply Twb_body_no_rad; discriminate.
  - destruct (Twb_defined Tair rh Pair speed solar fdir cza 0) as (n & Hn).
    eexists; exact Hn.
  - intros k. unfold Twb_pass. induction k as [| k IH]; [reflexivity |].
    rewrite Nat.iter_succ.
    match goal with
    | |- heat (Twb_body M ?a ?b ?c ?d ?e ?f ?g ?h ?i ?j ?s) = _ =>
        destruct (Twb_body_no_rad a b c d g h j e f i e f i s) as [_ Hh];
          [discriminate |]
    end.
    rewrite Hh. exact IH.
Qed.

End Solvers.

(** ** The direct-beam fraction stays in its range *)

Lemma to_float_idempotent (x : double) :
  to_float (to_double (to_float x)) = to_float x.
Proof.
  unfold to_float, to_double. cbn [dbits fbits].
  rewrite sf_round_idempotent. reflexivity.
Qed.

Lemma clamp_fdir_range (x : double) :
  ((0.0 <=? clamp_fdir (to_float x))
   && (clamp_fdir (to_float x) <=? 0.9))%D = true.
Proof.
  unfold clamp_fdir, min, max.
  destruct (to_float x <? 0.9)%D eqn:Hhi.
  - destruct (0.0 <? to_float x)%D eqn:Hlo.
    + rewrite to_float_idempotent.
      unfold D.leb. unfold D.ltb in Hhi, Hlo.
      rewrite (SFltb_leb _ _ Hhi), (SFltb_leb _ _ Hlo). reflexivity.
    + reflexivity.
  - reflexivity.
Qed.

Section DirectBeam.

Variable M : Libm.
Variable spa_calculate : spa_data -> spa_output.
Variable U : indeterminate.

Lemma calc_solar_partition_fdir_range (solar cza : float) (soldist : double) :
  ((0.0 <=? csp_fdir (calc_solar_partition M solar cza soldist))
   && (csp_fdir (calc_solar_partition M solar cza soldist) <=? 0.9))%D = true.
Proof.
  rewrite calc_solar_partition_fdir. cbv zeta.
  match goal with |- context [if ?c then _ else _] => destruct c end.
  - apply clamp_fdir_range.
  - reflexivity.
Qed.

(** C6: with [toasolar] the top-of-atmosphere irradiance and [normsolar =
    min(solar / toasolar, 0.85)] the normalized irradiance that
    [calc_solar_parameters] computes when [toasolar > 0], the direct-beam
    fraction is [exp(3 - 1.34 normsolar - 1.65 / normsolar)] clamped to
    [0, 0.9] when [normsolar > 0], and 0 otherwise; in every case the
    fraction returned lies in [0, 0.9]. *)
Theorem calc_solar_parameters_fdir (year month : int) (day : double)
    (lat lon : float) (use_spa : int) (solar cza : float) :
  exists (sp : solar_parameters) (cza' : float) (soldist : double),
    calc_solar_parameters M spa_calculate U year month day lat lon use_spa
      solar cza = Some sp /\
    calc_solar_geometry M spa_calculate U year month day lat lon use_spa cza
    = Some (cza', soldist) /\
    (let toasolar := toasolar_of cza' soldist in
     let normsolar := normsolar_of solar toasolar in
     csp_fdir sp =
       if (toasolar >? 0.0)%D && (normsolar >? 0.0)%D
       then clamp_fdir
              (to_float (exp M (3.0 - 1.34 * normsolar - 1.65 / normsolar)%D))
       else to_float 0.0%D) /\
    ((0.0 <=? csp_fdir sp) && (csp_fdir sp <=? 0.9))%D = true.
Proof.
  destruct (calc_solar_parameters_defined M spa_calculate U year month day
              lat lon use_spa solar cza) as (cza' & soldist & Hg & Hsp).
  exists (calc_solar_partition M solar cza' soldist), cza', soldist.
  split; [exact Hsp |]. split; [exact Hg |]. split.
  - apply calc_solar_partition_fdir.
  - apply calc_solar_partition_fdir_range.
Qed.

End DirectBeam.

(** ** Wet bulb-globe temperature *)

Lemma sentinel_is_minus_9999 : F.of_int (- 9999) = SENTINEL.
Proof. reflexivity. Qed.

Lemma maxf_floor (e ms : float) :
  fbits ms <> S754_nan -> F.leb ms (maxf e ms) = true.
Proof.
  intros Hms. unfold maxf, F.leb.
  destruct (e >f? ms) eqn:Hgt.
  - apply SFltb_leb. exact Hgt.
  - apply SFleb_refl. exact Hms.
Qed.

(** The floor under the wind speed is a number. *)
Lemma speed_floor_not_nan (min_speed : float) :
  fbits (speed_floor min_speed) <> S754_nan.
Proof.
  unfold speed_floor, max.
  destruct (min_speed >? MIN_SPEED)%D eqn:Hgt.
  - unfold to_float. cbn [fbits].
    apply sf_round_not_nan; [reflexivity |].
    apply (SFltb_not_nan _ _ Hgt).
  - discriminate.
Qed.

Section WBGT.

Variable M : Libm.
Variable spa_calculate : spa_data -> spa_output.
Variable U : indeterminate.

(** [calc_wbgt] is defined on every input; its wind speed is the larger of
    an estimate and the floor, and its value and [Twbg] are decided by the
    test on [Tg] and [Tnwb]. *)
Lemma calc_wbgt_spec (year month day hour minute second gmt avg : int)
    (lat lon solar pres Tair relhum speed zspeed dT : float)
    (urban use_spa : int) (min_speed d_globe : float) :
  exists (r : wbgt_result) (e : float),
    calc_wbgt M spa_calculate U year month day hour minute second gmt avg
      lat lon solar pres Tair relhum speed zspeed dT urban use_spa
      min_speed d_globe = Some r /\
    est_speed r = maxf e (speed_floor min_speed) /\
    wbgt_return r = (if solve_failed r then -1 else 0) /\
    Twbg r = (if solve_failed r then SENTINEL
              else to_float (0.1 * Tair + 0.2 * Tg r + 0.7 * Tnwb r)%D).
Proof.
  unfold calc_wbgt. fold (speed_floor min_speed).
  match goal with
  | |- context [calc_solar_parameters M spa_calculate U ?y ?m ?d ?la ?lo ?us
                  ?so ?cz] =>
      destruct (calc_solar_parameters_defined M spa_calculate U y m d la lo
                  us so cz) as (cza & soldist & _ & ->)
  end.
  cbn [bind].
  set (sp := calc_solar_partition M solar cza soldist).
  assert (Hest : exists e : float,
             (if negb (zspeed =? REF_HEIGHT)%D
              then
                bind (stab_srdt (if (csp_cza sp >? 0.0)%D then TRUE else FALSE)
                        speed (csp_solar sp) dT)
                  (fun stability_class =>
                     est_wind_speed M speed zspeed stability_class urban
                       (speed_floor min_speed))
              else Some (maxf speed (speed_floor min_speed)))
             = Some (maxf e (speed_floor min_speed))).
  { destruct (negb (zspeed =? REF_HEIGHT)%D).
    - destruct (stab_srdt_class
                  (if (csp_cza sp >? 0.0)%D then TRUE else FALSE)
                  speed (csp_solar sp) dT) as (c & -> & Hc).
      cbn [bind].
      destruct (est_wind_speed_defined M speed zspeed c urban
                  (speed_floor min_speed) Hc) as (x & _ & ->).
      eexists; reflexivity.
    - eexists; reflexivity. }
  destruct Hest as (e & ->). cbn [bind].
  match goal with
  | |- context [Tglobe M ?a ?b ?c ?d ?e' ?f ?g ?h] =>
      destruct (Tglobe_defined M a b c d e' f g h) as (ng & ->)
  end.
  cbn [bind].
  match goal with
  | |- context [Twb M ?a ?b ?c ?d ?e' ?f ?g 1] =>
      destruct (Twb_defined M a b c d e' f g 1) as (nw & ->);
      destruct (Twb_defined M a b c d e' f g 0) as (np & ->)
  end.
  cbn [bind].
  match goal with
  | |- context [if ?c then _ else _] => destruct c eqn:Hfail
  end;
    (eexists; exists e; split; [reflexivity |];
     unfold solve_failed, is_sentinel;
     cbn [est_speed wbgt_return Twbg Tg Tnwb];
     rewrite Hfail; repeat split; reflexivity).
Qed.

(** C1: on every input on which neither the globe solve nor the natural
    wet bulb solve fails (neither [Tg] nor [Tnwb] is the sentinel),
    [calc_wbgt] returns 0 and the composite index
    [Twbg = 0.1 Tair + 0.2 Tg + 0.7 Tnwb], evaluated in double precision and
    stored in single precision as the source does. *)
Theorem calc_wbgt_composite (year month day hour minute second gmt avg : int)
    (lat lon solar pres Tair relhum speed zspeed dT : float)
    (urban use_spa : int) (min_speed d_globe : float) :
  exists r : wbgt_result,
    calc_wbgt M spa_calculate U year month day hour minute second gmt avg
      lat lon solar pres Tair relhum speed zspeed dT urban use_spa
      min_speed d_globe = Some r /\
    (is_sentinel (Tg r) = false -> is_sentinel (Tnwb r) = false ->
     wbgt_return r = 0 /\
     Twbg r = to_float (0.1 * Tair + 0.2 * Tg r + 0.7 * Tnwb r)%D).
Proof.
  destruct (calc_wbgt_spec year month day hour minute second gmt avg
              lat lon solar pres Tair relhum speed zspeed dT urban use_spa
              min_speed d_globe) as (r & e & Hr & _ & Hret & Hw).
  exists r. split; [exact Hr |]. intros Hg Hn.
  unfold solve_failed in Hret, Hw. rewrite Hg, Hn in Hret, Hw.
  split; assumption.
Qed.

(** C3, amended: if the globe solve or the natural wet bulb solve returns
    the sentinel -9999, [calc_wbgt] sets [*Twbg] to -9999 and returns -1;
    otherwise it returns 0 and the weighted sum, whatever the psychrometric
    wet bulb solve returned. *)
Theorem calc_wbgt_failure (year month day hour minute second gmt avg : int)
    (lat lon solar pres Tair relhum speed zspeed dT : float)
    (urban use_spa : int) (min_speed d_globe : float) :
  exists r : wbgt_result,
    calc_wbgt M spa_calculate U year month day hour minute second gmt avg
      lat lon solar pres Tair relhum speed zspeed dT urban use_spa
      min_speed d_globe = Some r /\
    (is_sentinel (Tg r) = true \/ is_sentinel (Tnwb r) = true ->
     Twbg r = SENTINEL /\ wbgt_return r = -1) /\
    (is_sentinel (Tg r) = false /\ is_sentinel (Tnwb r) = false ->
     Twbg r = to_float (0.1 * Tair + 0.2 * Tg r + 0.7 * Tnwb r)%D /\
     wbgt_return r = 0).
Proof.
  destruct (calc_wbgt_spec year month day hour minute second gmt avg
              lat lon solar pres Tair relhum speed zspeed dT urban use_spa
              min_speed d_globe) as (r & e & Hr & _ & Hret & Hw).
  exists r. split; [exact Hr |]. unfold solve_failed in Hret, Hw. split.
  - intros Hfail.
    assert (Hf : is_sentinel (Tg r) || is_sentinel (Tnwb r) = true).
    { apply orb_true_iff. exact Hfail. }
    rewrite Hf in Hret, Hw. split; assumption.
  - intros [Hg Hn]. rewrite Hg, Hn in Hret, Hw. split; assumption.
Qed.

(** C5, amended: on every input the estimated wind speed written to
    [*est_speed] is at least the floor that the function works with, which
    is [max(min_speed, 0.13)] rounded to single precision; that is
    0.12999999523162842, just below 0.13, when [min_speed] is not above
    0.13.  This holds on both paths, the extrapolation through
    [est_wind_speed] and the direct flooring. *)
Theorem calc_wbgt_speed_floor
    (year month day hour minute second gmt avg : int)
    (lat lon solar pres Tair relhum speed zspeed dT : float)
    (urban use_spa : int) (min_speed d_globe : float) :
  exists r : wbgt_result,
    calc_wbgt M spa_calculate U year month day hour minute second gmt avg
      lat lon solar pres Tair relhum speed zspeed dT urban use_spa
      min_speed d_globe = Some r /\
    F.leb (speed_floor min_speed) (est_speed r) = true /\
    ((min_speed >? MIN_SPEED)%D = false ->
     speed_floor min_speed = to_float MIN_SPEED /\
     (to_float MIN_SPEED <? MIN_SPEED)%D = true).
Proof.
  destruct (calc_wbgt_spec year month day hour minute second gmt avg
              lat lon solar pres Tair relhum speed zspeed dT urban use_spa
              min_speed d_globe) as (r & e & Hr & He & _).
  exists r. split; [exact Hr |]. split.
  - rewrite He. apply maxf_floor. apply speed_floor_not_nan.
  - intros Hle. unfold speed_floor, max. rewrite Hle.
    split; reflexivity.
Qed.

End WBGT.

(** * Runs of the model

    The model evaluated with the reference C library on concrete inputs. *)

Local Open Scope Z_scope.

Lemma never_close_spec {S : Type} (body : S -> S) (close : S -> S -> bool)
    (n : nat) (s : S) :
  never_close body close n s = true ->
  forall k : nat, (k < n)%nat ->
    close (Nat.iter k body s) (body (Nat.iter k body s)) = false.
Proof.
  revert s. induction n as [| n IH]; intros s Hn k Hk; [lia |].
  cbn [never_close] in Hn. apply andb_true_iff in Hn as [Hc Hrest].
  destruct k as [| k].
  - cbn [Nat.iter nat_rect]. apply negb_true_iff. exact Hc.
  - rewrite !(Nat.iter_succ_r _ _ body s). apply IH; [exact Hrest | lia].
Qed.

(** 21 June 2005, 12:00 LST at 35 N 98 W (GMT-6): 800 W/m2, 1013 mb, 33 degC,
    50 %, no wind (measured at 2 m) and no minimum speed configured.  The
    estimated speed is 8724152 * 2^-26 = 0.12999999523162842; Tg = 63.49,
    Tnwb = 32.92, Tpsy = 24.27, Twbg = 39.04 degC. *)
Lemma run_calm :
  calc_wbgt RefLibm.libm spa_unavailable no_junk
    2005 6 21 12 0 0 (-6) 1
    (to_float 35.0) (to_float (- 98.0)) (to_float 800.0) (to_float 1013.0)
    (to_float 33.0) (to_float 50.0) (to_float 0.0) (to_float 2.0)
    (to_float 0.0) 0 0 (to_float 0.0) (to_float 0.0)
  = Some {| wbgt_return := 0;
            est_speed := Flt (S754_finite false 8724152 (-26));
            solar_adj := Flt (S754_finite false 13107201 (-14));
            Tg := Flt (S754_finite false 16643014 (-18));
            Tnwb := Flt (S754_finite false 8630310 (-18));
            Tpsy := Flt (S754_finite false 12725693 (-19));
            Twbg := Flt (S754_finite false 10234895 (-18)) |}.
Proof. vm_compute. reflexivity. Qed.

(** The same hour with a wind of 2 m/s and a relative humidity of 0 %: the
    dew point, the first guess of [Twb], is not a number, and neither wet
    bulb solve converges. *)
Lemma run_dry :
  calc_wbgt RefLibm.libm spa_unavailable no_junk
    2005 6 21 12 0 0 (-6) 1
    (to_float 35.0) (to_float (- 98.0)) (to_float 800.0) (to_float 1013.0)
    (to_float 33.0) (to_float 0.0) (to_float 2.0) (to_float 2.0)
    (to_float 0.0) 0 0 (to_float 0.0) (to_float 0.0)
  = Some {| wbgt_return := -1;
            est_speed := Flt (S754_finite false 8388608 (-22));
            solar_adj := Flt (S754_finite false 13107201 (-14));
            Tg := Flt (S754_finite false 10474958 (-18));
            Tnwb := SENTINEL;
            Tpsy := SENTINEL;
            Twbg := SENTINEL |}.
Proof. vm_compute. reflexivity. Qed.

(** 15 January 2005, 12:00 LST at 45 N 98 W: 400 W/m2, 1013 mb, -5 degC, 5 %,
    wind 0.5 m/s measured at 2 m.  Tg = 9.60 and Tnwb = -2.59 degC; the
    psychrometric solve does not converge. *)
Lemma run_cold_dry :
  calc_wbgt RefLibm.libm spa_unavailable no_junk
    2005 1 15 12 0 0 (-6) 1
    (to_float 45.0) (to_float (- 98.0)) (to_float 400.0) (to_float 1013.0)
    (to_float (- 5.0)) (to_float 5.0) (to_float 0.5) (to_float 2.0)
    (to_float 0.0) 0 0 (to_float 0.0) (to_float 0.0)
  = Some {| wbgt_return := 0;
            est_speed := Flt (S754_finite false 8388608 (-24));
            solar_adj := Flt (S754_finite false 13107200 (-15));
            Tg := Flt (S754_finite false 10065370 (-20));
            Tnwb := Flt (S754_finite true 10848538 (-22));
            Tpsy := SENTINEL;
            Twbg := Flt (S754_finite true 13110661 (-25)) |}.
Proof. vm_compute. reflexivity. Qed.

(** 15 January 2005, 06:00 GMT (midnight LST) at 45 N 98 W, with 300 W/m2
    reported: the Sun is below the horizon, [cza = -0.9035]. *)
Lemma run_night :
  calc_solar_parameters RefLibm.libm spa_unavailable no_junk
    2005 1 15.25 (to_float 45.0) (to_float (- 98.0)) 0
    (to_float 300.0) (cza0 no_junk)
  = Some {| csp_return := 0;
            csp_solar := to_float 0.0;
            csp_cza := Flt (S754_finite true 15158103 (-24));
            csp_fdir := to_float 0.0 |}.
Proof. vm_compute. reflexivity. Qed.

(** 268.15 K, 5 %, 1013 mb, 30 m/s: none of the 50 passes of the
    psychrometric solve finds its test satisfied. *)
Lemma run_never_close_Twb :
  never_close
    (Twb_body RefLibm.libm (to_float 268.15) (to_float 0.05) (to_float 1013.0)
       (to_float 30.0) (to_float 0.0) (to_float 0.0) 0 (to_float 268.15)
       (to_float (acos RefLibm.libm (to_float 0.9)))
       (to_float 0.05 *f esat RefLibm.libm (to_float 268.15) 0))
    (fun s s' => (fabs (Twb_new s' -f Twb_prev s) <? CONVERGENCE)%D)
    50
    (Twb_init
       (dew_point RefLibm.libm
          (to_float 0.05 *f esat RefLibm.libm (to_float 268.15) 0) 0))
  = true.
Proof. vm_compute. reflexivity. Qed.

(** The same air around a 2 cm globe: none of the 50 passes of the globe
    solve finds its test satisfied. *)
Lemma run_never_close_Tglobe :
  never_close
    (Tglobe_body RefLibm.libm (to_float 268.15) (to_float 0.05)
       (to_float 1013.0) (to_float 30.0) (to_float 0.0) (to_float 0.0)
       (to_float 0.9) (Tglobe_d_globe (to_float 0.02)) (to_float 268.15))
    (fun s s' => (fabs (Tglobe_new s' -f Tglobe_prev s) <? CONVERGENCE)%D)
    50
    (Tglobe_init (to_float 268.15))
  = true.
Proof. vm_compute. reflexivity. Qed.

(** ** Witnesses *)

Lemma calc_wbgt_composite_witness :
  exists r : wbgt_result,
    calc_wbgt RefLibm.libm spa_unavailable no_junk
      2005 6 21 12 0 0 (-6) 1
      (to_float 35.0) (to_float (- 98.0)) (to_float 800.0) (to_float 1013.0)
      (to_float 33.0) (to_float 50.0) (to_float 0.0) (to_float 2.0)
      (to_float 0.0) 0 0 (to_float 0.0) (to_float 0.0) = Some r /\
    is_sentinel (Tg r) = false /\ is_sentinel (Tnwb r) = false /\
    wbgt_return r = 0 /\
    Twbg r = to_float (0.1 * to_float 33.0 + 0.2 * Tg r + 0.7 * Tnwb r)%D.
Proof.
  destruct (calc_wbgt_composite RefLibm.libm spa_unavailable no_junk
              2005 6 21 12 0 0 (-6) 1
              (to_float 35.0) (to_float (- 98.0)) (to_float 800.0)
              (to_float 1013.0) (to_float 33.0) (to_float 50.0)
              (to_float 0.0) (to_float 2.0) (to_float 0.0) 0 0
              (to_float 0.0) (to_float 0.0)) as (r & Hr & H).
  exists r. split; [exact Hr |].
  rewrite run_calm in Hr. injection Hr as <-.
  split; [reflexivity |]. split; [reflexivity |].
  apply H; reflexivity.
Defined.

Lemma solver_iteration_cap_witness :
  Twb RefLibm.libm (to_float 268.15) (to_float 0.05) (to_float 1013.0)
    (to_float 30.0) (to_float 0.0) (to_float 0.0) (to_float 0.9) 0
  = Some SENTINEL /\
  Tglobe RefLibm.libm (to_float 268.15) (to_float 0.05) (to_float 1013.0)
    (to_float 30.0) (to_float 0.0) (to_float 0.0) (to_float 0.9)
    (to_float 0.02)
  = Some SENTINEL.
Proof.
  destruct (solver_iteration_cap RefLibm.libm
              (to_float 268.15) (to_float 0.05) (to_float 1013.0)
              (to_float 30.0) (to_float 0.0) (to_float 0.0) (to_float 0.9)
              (to_float 0.02) 0)
    as [(n & _ & _ & _ & Hw) (m & _ & _ & _ & Hg)].
  split.
  - apply Hw. intros k Hk.
    exact (never_close_spec _ _ 50 _ run_never_close_Twb k Hk).
  - apply Hg. intros k Hk.
    exact (never_close_spec _ _ 50 _ run_never_close_Tglobe k Hk).
Defined.

Lemma calc_wbgt_failure_witness :
  exists r : wbgt_result,
    calc_wbgt RefLibm.libm spa_unavailable no_junk
      2005 6 21 12 0 0 (-6) 1
      (to_float 35.0) (to_float (- 98.0)) (to_float 800.0) (to_float 1013.0)
      (to_float 33.0) (to_float 0.0) (to_float 2.0) (to_float 2.0)
      (to_float 0.0) 0 0 (to_float 0.0) (to_float 0.0) = Some r /\
    is_sentinel (Tnwb r) = true /\
    Twbg r = SENTINEL /\ wbgt_return r = -1.
Proof.
  destruct (calc_wbgt_failure RefLibm.libm spa_unavailable no_junk
              2005 6 21 12 0 0 (-6) 1
              (to_float 35.0) (to_float (- 98.0)) (to_float 800.0)
              (to_float 1013.0) (to_float 33.0) (to_float 0.0)
              (to_float 2.0) (to_float 2.0) (to_float 0.0) 0 0
              (to_float 0.0) (to_float 0.0)) as (r & Hr & Hfail & _).
  exists r. split; [exact Hr |].
  rewrite run_dry in Hr. injection Hr as <-.
  split; [reflexivity |].
  apply Hfail. right. reflexivity.
Defined.

Lemma calc_wbgt_speed_floor_witness :
  exists r : wbgt_result,
    calc_wbgt RefLibm.libm spa_unavailable no_junk
      2005 6 21 12 0 0 (-6) 1
      (to_float 35.0) (to_float (- 98.0)) (to_float 800.0) (to_float 1013.0)
      (to_float 33.0) (to_float 50.0) (to_float 0.0) (to_float 2.0)
      (to_float 0.0) 0 0 (to_float 0.0) (to_float 0.0) = Some r /\
    (to_float 0.0 >? MIN_SPEED)%D = false /\
    F.leb (speed_floor (to_float 0.0)) (est_speed r) = true /\
    speed_floor (to_float 0.0) = to_float MIN_SPEED /\
    (to_float MIN_SPEED <? MIN_SPEED)%D = true.
Proof.
  destruct (calc_wbgt_speed_floor RefLibm.libm spa_unavailable no_junk
              2005 6 21 12 0 0 (-6) 1
              (to_float 35.0) (to_float (- 98.0)) (to_float 800.0)
              (to_float 1013.0) (to_float 33.0) (to_float 50.0)
              (to_float 0.0) (to_float 2.0) (to_float 0.0) 0 0
              (to_float 0.0) (to_float 0.0)) as (r & Hr & Hle & Hfloor).
  exists r. split; [exact Hr |]. split; [reflexivity |].
  split; [exact Hle |]. apply Hfloor. reflexivity.
Defined.

Lemma calc_solar_parameters_below_horizon_witness :
  exists sp : solar_parameters,
    calc_solar_parameters RefLibm.libm spa_unavailable no_junk
      2005 1 15.25 (to_float 45.0) (to_float (- 98.0)) 0
      (to_float 300.0) (cza0 no_junk) = Some sp /\
    (csp_cza sp <? CZA_MIN)%D = true /\
    csp_solar sp = to_float 0.0 /\ csp_fdir sp = to_float 0.0.
Proof.
  destruct (calc_solar_parameters_below_horizon RefLibm.libm spa_unavailable
              no_junk 2005 1 15.25 (to_float 45.0) (to_float (- 98.0)) 0
              (to_float 300.0) (cza0 no_junk)) as (sp & Hsp & H).
  exists sp. split; [exact Hsp |].
  rewrite run_night in Hsp. injection Hsp as <-.
  split; [reflexivity |]. apply H. reflexivity.
Defined.

Lemma solarposition_domain_error_witness :
  exists r : solpos_result,
    solarposition RefLibm.libm 2005 6 21.5 0.0 91.0 (- 98.0) = Some r /\
    domain_error 2005 6 21.5 0.0 91.0 (- 98.0) = true /\
    latlon_out_of_range 91.0 (- 98.0) = true /\
    sp_return r = -1 /\ sp_written r = None /\
    solarposition RefLibm.libm 1800 13 400.0 0.0 91.0 (- 98.0)
    = Some {| sp_return := -1; sp_written := None |}.
Proof.
  destruct (solarposition_domain_error RefLibm.libm 2005 6 21.5 0.0 91.0
              (- 98.0)) as ((r & Hr & Hret & Hw) & _ & _ & Hll).
  exists r. split; [exact Hr |]. split; [reflexivity |].
  split; [reflexivity |]. split; [exact Hret |].
  split; [apply Hw; reflexivity |]. apply Hll. reflexivity.
Defined.

Lemma calc_solar_parameters_returns_0_witness :
  exists sp : solar_parameters,
    calc_solar_parameters RefLibm.libm spa_unavailable stale_values
      2005 6 21.75 (to_float 91.0) (to_float (- 98.0)) 0
      (to_float 800.0) (cza0 stale_values) = Some sp /\
    domain_error 2005 6 21.75 0.0 (to_float 91.0) (to_float (- 98.0)) = true /\
    solarposition RefLibm.libm 2005 6 21.75 0.0 (to_float 91.0)
      (to_float (- 98.0))
    = Some {| sp_return := -1; sp_written := None |} /\
    csp_return sp = 0 /\
    sp = calc_solar_partition RefLibm.libm (to_float 800.0)
           (to_float (cos RefLibm.libm ((90.0 - 60.0) * DEG_RAD)%D)) 1.0.
Proof.
  destruct (calc_solar_parameters_returns_0 RefLibm.libm spa_unavailable
              stale_values 2005 6 21.75 (to_float 91.0) (to_float (- 98.0)) 0
              (to_float 800.0) (cza0 stale_values))
    as (sp & Hsp & Hret & Hdrop).
  exists sp. split; [exact Hsp |]. split; [reflexivity |].
  destruct (Hdrop eq_refl eq_refl) as [Hsol Hjunk].
  split; [exact Hsol |]. split; [exact Hret | exact Hjunk].
Defined.

(** ** Counterexamples *)

(** C3 as stated fails: in the run of 15 January the psychrometric wet bulb
    solve returns the sentinel, and [calc_wbgt] nevertheless returns 0 with
    [Twbg = -0.39], not -9999. *)
Lemma calc_wbgt_psychrometric_failure_unreported :
  exists r : wbgt_result,
    calc_wbgt RefLibm.libm spa_unavailable no_junk
      2005 1 15 12 0 0 (-6) 1
      (to_float 45.0) (to_float (- 98.0)) (to_float 400.0) (to_float 1013.0)
      (to_float (- 5.0)) (to_float 5.0) (to_float 0.5) (to_float 2.0)
      (to_float 0.0) 0 0 (to_float 0.0) (to_float 0.0) = Some r /\
    Tpsy r = SENTINEL /\ is_sentinel (Tpsy r) = true /\
    wbgt_return r = 0 /\ wbgt_return r <> -1 /\
    is_sentinel (Twbg r) = false /\ Twbg r <> SENTINEL.
Proof.
  eexists. split; [exact run_cold_dry |]. cbn [Tpsy wbgt_return Twbg].
  repeat split; try reflexivity; discriminate.
Qed.

(** C5 as stated fails: in the calm run the estimated wind speed is below
    [max(min_speed, 0.13)]. *)
Lemma calc_wbgt_speed_below_0_13 :
  exists r : wbgt_result,
    calc_wbgt RefLibm.libm spa_unavailable no_junk
      2005 6 21 12 0 0 (-6) 1
      (to_float 35.0) (to_float (- 98.0)) (to_float 800.0) (to_float 1013.0)
      (to_float 33.0) (to_float 50.0) (to_float 0.0) (to_float 2.0)
      (to_float 0.0) 0 0 (to_float 0.0) (to_float 0.0) = Some r /\
    (est_speed r <? max (to_float 0.0) MIN_SPEED)%D = true /\
    (est_speed r >=? max (to_float 0.0) MIN_SPEED)%D = false /\
    (est_speed r <? 0.13)%D = true.
Proof.
  eexists. split; [exact run_calm |]. cbn [est_speed].
  repeat split; reflexivity.
Qed.
